(** * config_shell.py: shell exports for restic from a YAML configuration

    A shallow embedding of the script [config_shell.py].  The script parses
    its command line with [argparse], loads a YAML document with
    [yaml.load] and wraps it in a [Box], then prints six [export] lines.

    The file has three parts: the data and the effects of the script
    (values, exceptions, the process state and a small monad), the script
    itself ([argument_parsing], [load_config], the body of [__main__])
    with the inputs of the examples, and the properties proved about it.

    The interpreter is CPython 3.11 and the [Box] is that of python-box 4
    and later.  A text (a Python [str]) is kept as a [string] that holds
    its UTF-8 bytes, a lone surrogate as the three bytes of its code
    point. *)

From Stdlib Require Import ZArith NArith List Bool Ascii String Lia.
From stdpp Require Import base option list gmap strings pretty.

Local Open Scope Z_scope.
Local Open Scope string_scope.
Local Set Warnings "-register-all".

(** ** Exceptions *)

(** The attribute names the script reads. *)
Inductive attr :=
| information | binaries
| rclone_connection_name | client_name | bucket_name | server_name
| restic.

Definition attr_name (a : attr) : string :=
  match a with
  | information => "information"
  | binaries => "binaries"
  | rclone_connection_name => "rclone_connection_name"
  | client_name => "client_name"
  | bucket_name => "bucket_name"
  | server_name => "server_name"
  | restic => "restic"
  end.

(** The exceptions that end in a traceback when nobody catches them;
    [OtherError] is an exception of any other class, by the name of the
    class ([RecursionError] for a document nested too deep,
    [NotADirectoryError], ...). *)
Inductive error :=
| FileNotFoundError (filename : string)
| IsADirectoryError
| PermissionError
| YAMLError
| UnicodeDecodeError
| BoxValueError
| TypeError
| ValueError
| BoxKeyError (item : attr)
| AttributeError (item : attr)
| UnicodeEncodeError
| OSError
| OtherError (class_name : string).

(** [SystemExit] ends the process with its code and without a traceback. *)
Inductive exn :=
| SystemExit (code : Z)
| Error (e : error).

Coercion Error : error >-> exn.

(** [BoxKeyError] derives from both [KeyError] and [AttributeError]. *)
Definition is_lookup_error (e : error) : bool :=
  match e with
  | BoxKeyError _ | AttributeError _ => true
  | _ => false
  end.

Inductive result (A : Type) :=
| Ok (a : A)
| Raise (e : exn).
Arguments Ok {A} a.
Arguments Raise {A} e.

Definition of_sum {A : Type} (r : error + A) : result A :=
  match r with
  | inl e => Raise e
  | inr a => Ok a
  end.

(** ** Values *)

(** What [yaml.load] builds from a document: the scalars, sequences and
    mappings of YAML.  A float is kept as the text [str] gives for it.  A
    mapping is the Python dict in insertion order; its keys are distinct.
    [YOther] is any other value (a set, a date, bytes, a tuple), known by
    what [str] gives for it in a process with a given limit on the
    digits of an integer and a given hash seed: a text, or the error it
    raises.

    The values are trees.  A document in which a value contains itself
    through an alias is kept as the tree of what the script reaches in
    it, the two levels of keys it reads, with [YOther] for the values
    below; when [Box] cannot follow the aliases and raises, the file is
    one of those that cannot be loaded ([Unloadable] below). *)
Inductive yaml :=
| YNone
| YBool (b : bool)
| YInt (n : Z)
| YFloat (text : string)
| YStr (s : string)
| YList (items : list yaml)
| YDict (entries : list (yaml * yaml))
| YOther (text : N → N → error + string).

(** A [Box] is a dict that also answers attribute access; every nested
    dict is a [Box] and every nested list a [BoxList] from construction
    on, which leaves the tree of values as it is. *)
Definition box := list (yaml * yaml).

(** ** The libraries

    Three corners of [python-box] and one of [argparse] differ between
    releases or need Unicode tables (the layout of the help text, a [Box]
    made from an iterable, the conversion of keys that are not
    identifiers, the [repr] of nested values).  They are parameters: the
    script is verified for every behaviour they can have. *)
Class PyLibs := {
  (** the text [print_help] writes for a program name: [HelpFormatter]
      lays it out to the width of the terminal *)
  format_help : string → nat → string;
  (** [Box(cfg)] for a value that is iterable and no mapping (a list, a
      set, bytes): its items are unpacked as key/value pairs *)
  box_from_iterable : yaml → error + box;
  (** the [conversion_box] fallback of attribute access: the value of a
      key that is not the attribute name but converts to it *)
  conversion_box : box → string → option yaml;
  (** [str] of a [Box] or a [BoxList], for the limit on the digits of an
      integer and the hash seed of the process *)
  collection_str : N → N → yaml → error + string;
}.

(** ** The process state *)

(** A path of the file system is kept as what the script can get from
    it: [open] fails for another reason than a missing file (a
    directory, a file that may not be read, a name that the system
    refuses), or the file opens and loading raises on its content
    ([yaml.load] raises [YAMLError] for text that is not YAML,
    [UnicodeDecodeError] for bytes that are not text, [ValueError] for a
    decimal integer beyond the limit on digits), or [yaml.load] returns
    a document.  A path has no
    entry when no file has this name, which is when [open] raises
    [FileNotFoundError]. *)
Inductive file_content :=
| Unopenable (e : error)
| Unloadable (e : error)
| Document (doc : yaml).

Inductive usage_error :=
| Ambiguous (arg : string)
| ExpectedOneArgument
| IgnoredExplicitArgument (explicit : string)
| RequiredRepo
| Unrecognized (extras : list string).

(** What is handed to the error stream: the usage message of
    [parser.error], the help when there is no standard output, the
    traceback of an exception nobody caught, and the note of the
    interpreter when the last flush of standard output fails. *)
Inductive diagnostic :=
| UsageMessage (prog : string) (err : usage_error)
| HelpMessage (text : string)
| Traceback (e : error)
| ExceptionIgnored (e : error).

(** What a write to standard output can raise: the encoding of the stream
    has no bytes for the text ([UnicodeEncodeError]), or the device
    refuses ([OSError]: no space left, a closed pipe). *)
Inductive write_error := EncodeError | DeviceError.

Definition error_of (e : write_error) : error :=
  match e with
  | EncodeError => UnicodeEncodeError
  | DeviceError => OSError
  end.

(** An open [sys.stdout], by what it answers: whether [write] raises for
    a text, given all that was written before, and whether the flush at
    the end of the process fails, given all that was written. *)
Record stream := Stream {
  refuses : string → string → option write_error;
  flush_fails : string → bool;
}.

(** The state of the process and of what surrounds it: the files, the
    environment variables, the commands started, the width that
    [shutil.get_terminal_size] reports (the variable [COLUMNS] when it is
    set, else the terminal, else 80), the limit on the digits of an
    integer turned into text ([sys.get_int_max_str_digits()]: 4300 unless
    set otherwise, 0 for none), the seed of the hashes of this process,
    [sys.stdout] ([None] when the process was started without standard
    output), the text written to it, and what was handed to the error
    stream.  The error stream is open and takes what is handed to it; a
    process started without it, or with one that fails, is not
    described. *)
Record world := World {
  fs : gmap string file_content;
  environ : gmap string string;
  spawned : list string;
  columns : nat;
  int_max_str_digits : N;
  hash_seed : N;
  sys_stdout : option stream;
  stdout : string;
  stderr : list diagnostic;
}.

Definition write_stdout (text : string) (w : world) : world :=
  {| fs := fs w; environ := environ w; spawned := spawned w;
     columns := columns w; int_max_str_digits := int_max_str_digits w;
     hash_seed := hash_seed w; sys_stdout := sys_stdout w;
     stdout := stdout w +:+ text; stderr := stderr w |}.

Definition write_stderr (d : diagnostic) (w : world) : world :=
  {| fs := fs w; environ := environ w; spawned := spawned w;
     columns := columns w; int_max_str_digits := int_max_str_digits w;
     hash_seed := hash_seed w; sys_stdout := sys_stdout w;
     stdout := stdout w; stderr := stderr w ++ [d] |}.

(** ** Computations: state, and exceptions that keep the state *)

Definition M (A : Type) : Type := world → result A * world.

Global Instance M_ret : MRet M := fun A a w => (Ok a, w).

Global Instance M_bind : MBind M := fun A B f m w =>
  match m w with
  | (Ok a, w') => f a w'
  | (Raise e, w') => (Raise e, w')
  end.

Definition raise {A : Type} (e : exn) : M A := fun w => (Raise e, w).

Definition lift {A : Type} (r : result A) : M A := fun w => (r, w).

Definition newline : string := String "010"%char "".
Definition dquote : string := String "034"%char "".

(** [file.write(text)] on an open standard output. *)
Definition stream_write (st : stream) (text : string) : M unit :=
  fun w =>
    match refuses st (stdout w) text with
    | Some e => (Raise (error_of e), w)
    | None => (Ok tt, write_stdout text w)
    end.

(** [print(s)]: nothing when [sys.stdout] is [None]; else the text and
    the newline, in two writes. *)
Definition print (s : string) : M unit :=
  fun w =>
    match sys_stdout w with
    | None => (Ok tt, w)
    | Some st => (stream_write st s ;; stream_write st newline) w
    end.

(** The text of a list of lines, each one closed by a newline. *)
Definition unlines (ls : list string) : string :=
  foldr (fun l acc => l +:+ newline +:+ acc) "" ls.

(** ** [argparse]

    The parser of [argument_parsing]: the option [-h]/[--help] that
    [ArgumentParser] adds, the option [-r]/[--repo] taking one argument,
    and the positional [config] with [nargs='?'].  The definitions follow
    [ArgumentParser._parse_known_args] of CPython 3.11 for this parser. *)

Inductive action := Help | Repo.

Definition option_string_actions : list (string * action) :=
  [("-h", Help); ("--help", Help); ("-r", Repo); ("--repo", Repo)].

Definition find_option (s : string) : option action :=
  snd <$> List.find (fun oa => String.eqb (fst oa) s) option_string_actions.

(** [s.split('=', 1)] when ['=' in s]. *)
Fixpoint split_eq (s : string) : option (string * string) :=
  match s with
  | "" => None
  | String c s' =>
      if Ascii.eqb c "="%char then Some ("", s')
      else match split_eq s' with
           | Some (a, b) => Some (String c a, b)
           | None => None
           end
  end.

(** [s.startswith(p)] *)
Fixpoint startswith (s p : string) {struct p} : bool :=
  match p, s with
  | "", _ => true
  | String cp p', String cs s' => Ascii.eqb cs cp && startswith s' p'
  | String _ _, "" => false
  end.

Fixpoint contains (c : ascii) (s : string) : bool :=
  match s with
  | "" => false
  | String c' s' => Ascii.eqb c c' || contains c s'
  end.

(** The code points of a text, read from its UTF-8 bytes: [need] bytes are
    still to come for the code point that has [acc] so far. *)
Fixpoint code_points (need : nat) (acc : N) (s : string) : list N :=
  match s with
  | "" => []
  | String b s' =>
      let n := N_of_ascii b in
      match need with
      | O =>
          if (n <? 128)%N then n :: code_points 0 0 s'
          else if (n <? 224)%N then code_points 1 (N.land n 31) s'
          else if (n <? 240)%N then code_points 2 (N.land n 15) s'
          else code_points 3 (N.land n 7) s'
      | S need' =>
          let acc' := (acc * 64 + N.land n 63)%N in
          match need' with
          | O => acc' :: code_points 0 0 s'
          | S _ => code_points need' acc' s'
          end
      end
  end.

(** The decimal digits of Unicode 14 (the characters that [\d] matches in
    CPython 3.11), as runs: the first code point and the length. *)
Definition decimal_digits : list (N * N) :=
  [(48, 10); (1632, 10); (1776, 10); (1984, 10); (2406, 10); (2534, 10);
    (2662, 10); (2790, 10); (2918, 10); (3046, 10); (3174, 10); (3302, 10);
    (3430, 10); (3558, 10); (3664, 10); (3792, 10); (3872, 10); (4160, 10);
    (4240, 10); (6112, 10); (6160, 10); (6470, 10); (6608, 10); (6784, 10);
    (6800, 10); (6992, 10); (7088, 10); (7232, 10); (7248, 10);
    (42528, 10); (43216, 10); (43264, 10); (43472, 10); (43504, 10);
    (43600, 10); (44016, 10); (65296, 10); (66720, 10); (68912, 10);
    (69734, 10); (69872, 10); (69942, 10); (70096, 10); (70384, 10);
    (70736, 10); (70864, 10); (71248, 10); (71360, 10); (71472, 10);
    (71904, 10); (72016, 10); (72784, 10); (73040, 10); (73120, 10);
    (92768, 10); (92864, 10); (93008, 10); (120782, 50); (123200, 10);
    (123632, 10); (125264, 10); (130032, 10) ]%N.

Definition is_digit (c : N) : bool :=
  existsb (λ run, (fst run <=? c)%N && (c <? fst run + snd run)%N)
          decimal_digits.

(** [\d*] then the end of the text, where [$] also matches before one
    last newline; [seen] tells whether a digit has been read. *)
Fixpoint digits_to_end (seen : bool) (s : list N) : bool :=
  match s with
  | [] => seen
  | c :: s' =>
      if is_digit c then digits_to_end true s'
      else seen && (c =? 10)%N && match s' with [] => true | _ => false end
  end.

(** [\d*\.\d+$] *)
Fixpoint digits_dot_digits (s : list N) : bool :=
  match s with
  | [] => false
  | c :: s' =>
      if is_digit c then digits_dot_digits s'
      else (c =? 46)%N && digits_to_end false s'
  end.

(** [_negative_number_matcher]: [^-\d+$|^-\d*\.\d+$] on the characters
    of the word. *)
Definition negative_number (s : string) : bool :=
  match code_points 0 0 s with
  | c :: s' => (c =? 45)%N && (digits_to_end false s' || digits_dot_digits s')
  | [] => false
  end.

(** An option tuple: the action (if any), its option string, and the
    argument written in the same word. *)
Definition option_tuple : Type := option action * string * option string.

Definition get_option_tuples (option_string : string) : list option_tuple :=
  match option_string with
  | String c0 (String c1 short_explicit_arg) =>
      if Ascii.eqb c1 "-"%char then
        let '(option_prefix, explicit_arg) :=
          match split_eq option_string with
          | Some (p, e) => (p, Some e)
          | None => (option_string, None)
          end in
        map (fun oa => (Some (snd oa), fst oa, explicit_arg))
            (List.filter (fun oa => startswith (fst oa) option_prefix)
                         option_string_actions)
      else
        let short_option_prefix := String c0 (String c1 "") in
        omap (fun oa =>
                if String.eqb (fst oa) short_option_prefix
                then Some (Some (snd oa), fst oa, Some short_explicit_arg)
                else if startswith (fst oa) option_string
                then Some (Some (snd oa), fst oa, None)
                else None)
             option_string_actions
  | _ => []
  end.

(** [_parse_optional]: [inr None] for a positional, [inr (Some t)] for an
    option, [inl] for the error of an ambiguous abbreviation. *)
Definition parse_optional (arg_string : string)
  : usage_error + option option_tuple :=
  match arg_string with
  | "" => inr None
  | String c rest =>
      if negb (Ascii.eqb c "-"%char) then inr None
      else match find_option arg_string with
      | Some a => inr (Some (Some a, arg_string, None))
      | None =>
        if String.eqb rest "" then inr None
        else
          let with_eq :=
            match split_eq arg_string with
            | Some (o, e) =>
                match find_option o with
                | Some a => Some (Some a, o, Some e)
                | None => None
                end
            | None => None
            end in
          match with_eq with
          | Some t => inr (Some t)
          | None =>
            match get_option_tuples arg_string with
            | _ :: _ :: _ => inl (Ambiguous arg_string)
            | [t] => inr (Some t)
            | [] =>
                if negative_number arg_string then inr None
                else if contains " "%char arg_string then inr None
                else inr (Some (None, arg_string, None))
            end
          end
      end
  end.

(** The [Namespace] that [parse_args] returns. *)
Record Namespace := { repo : string; config : string }.

Inductive outcome :=
| Parsed (args : Namespace)
| HelpRequested
| UsageError (err : usage_error).

(** The argument strings before the first ["--"], as the pattern has them:
    ['A'] for an argument, ['O'] for an option. *)
Inductive item :=
| A (arg_string : string)
| O (t : option_tuple) (arg_string : string).

Definition is_O (i : item) : bool :=
  match i with O _ _ => true | A _ => false end.

Definition arg_string_of (i : item) : string :=
  match i with A s => s | O _ s => s end.

(** The first pass of [_parse_known_args]: the items before the first
    ["--"], and the strings after it when there is one (all of them
    arguments). *)
Fixpoint classify (arg_strings : list string)
  : usage_error + (list item * option (list string)) :=
  match arg_strings with
  | [] => inr ([], None)
  | arg_string :: rest =>
      if String.eqb arg_string "--" then inr ([], Some rest)
      else match parse_optional arg_string with
           | inl err => inl err
           | inr t =>
               match classify rest with
               | inl err => inl err
               | inr (items, after) =>
                   inr (match t with
                        | None => A arg_string
                        | Some t => O t arg_string
                        end :: items, after)
               end
           end
  end.

(** What the second pass has gathered: [seen_config] is [None] while
    [config] is still among the positionals to consume. *)
Record gathered := {
  seen_repo : option string;
  seen_config : option string;
  extras : list string;
}.

Definition set_repo (v : string) (g : gathered) : gathered :=
  {| seen_repo := Some v; seen_config := seen_config g; extras := extras g |}.
Definition set_config (v : string) (g : gathered) : gathered :=
  {| seen_repo := seen_repo g; seen_config := Some v; extras := extras g |}.
Definition add_extras (l : list string) (g : gathered) : gathered :=
  {| seen_repo := seen_repo g; seen_config := seen_config g;
     extras := extras g ++ l |}.

(** The strings that follow, with the ["--"] put back. *)
Definition remaining (tail : list string) (after : option (list string))
  : list string :=
  tail ++ match after with Some post => "--" :: post | None => [] end.

(** The end of [_parse_known_args] and of [parse_args]: the positionals
    after the last option ([config] matches [-*A?-*], and the ["--"] is
    dropped from what it matched), the required option, the extras. *)
Definition finish (tail : list string) (after : option (list string))
    (g : gathered) : outcome :=
  let g :=
    match seen_config g with
    | Some _ => add_extras (remaining tail after) g
    | None =>
        match tail, after with
        | v :: [], Some post => add_extras post (set_config v g)
        | v :: tail', _ => add_extras (remaining tail' after) (set_config v g)
        | [], Some (v :: post) => add_extras post (set_config v g)
        | [], _ => set_config "config.yml" g
        end
    end in
  match seen_repo g, seen_config g, extras g with
  | None, _, _ => UsageError RequiredRepo
  | Some r, Some c, [] => Parsed {| repo := r; config := c |}
  | Some r, _, unknown => UsageError (Unrecognized unknown)
  end.

(** The one argument of [-r]/[--repo] when it is not in the same word: the
    pattern that follows must begin with ['A'] (for an option the ["--"]
    is taken out of the pattern [-*A-*]). *)
Definition repo_argument (rest : list item) : option string :=
  match rest with
  | A v :: _ => Some v
  | _ => None
  end.

(** [_get_values] for the argument of [-r]/[--repo] that is written in
    the same word ([--repo=R], [-rR]): CPython 3.11 takes the first ["--"]
    out of the argument strings of every action, so that for [R = "--"] no
    string is left and the value is the empty list instead of a string.
    The script only formats [args.repo], and [repo] holds the text of the
    value, ["[]"] for the empty list. *)
Definition explicit_value (explicit_arg : string) : string :=
  if String.eqb explicit_arg "--" then "[]" else explicit_arg.

(** Single-dash options written in one word after [-h]: [explicit_arg] is
    what follows the [h], and is not empty. *)
Fixpoint cluster (explicit_arg : string) (rest : list item) : outcome :=
  match explicit_arg with
  | "" => UsageError (IgnoredExplicitArgument explicit_arg)
  | String c new_explicit_arg =>
      match find_option (String "-"%char (String c "")) with
      | Some Help =>
          if String.eqb new_explicit_arg "" then HelpRequested
          else cluster new_explicit_arg rest
      | Some Repo =>
          if String.eqb new_explicit_arg "" then
            match repo_argument rest with
            | Some _ => HelpRequested
            | None => UsageError ExpectedOneArgument
            end
          else HelpRequested
      | None => UsageError (IgnoredExplicitArgument explicit_arg)
      end
  end.

(** The loop of [_parse_known_args]: positionals and options in turn, up
    to the last option string; [finish] does the rest. *)
Fixpoint consume (items : list item) (after : option (list string))
    (g : gathered) : outcome :=
  if negb (existsb is_O items) then finish (map arg_string_of items) after g
  else
    match items with
    | [] => finish [] after g
    | A v :: rest =>
        match seen_config g with
        | None => consume rest after (set_config v g)
        | Some _ => consume rest after (add_extras [v] g)
        end
    | O (None, _, _) arg_string :: rest =>
        consume rest after (add_extras [arg_string] g)
    | O (Some Help, option_string, Some explicit_arg) _ :: rest =>
        if String.eqb option_string "-h" && negb (String.eqb explicit_arg "")
        then cluster explicit_arg rest
        else UsageError (IgnoredExplicitArgument explicit_arg)
    | O (Some Help, _, None) _ :: _ => HelpRequested
    | O (Some Repo, _, Some explicit_arg) _ :: rest =>
        consume rest after (set_repo (explicit_value explicit_arg) g)
    | O (Some Repo, _, None) _ :: rest =>
        match rest with
        | A v :: rest' => consume rest' after (set_repo v g)
        | _ => UsageError ExpectedOneArgument
        end
    end.

(** [parser.parse_args()] on [sys.argv[1:]]. *)
Definition parse_args (arg_strings : list string) : outcome :=
  match classify arg_strings with
  | inl err => UsageError err
  | inr (items, after) =>
      consume items after
        {| seen_repo := None; seen_config := None; extras := [] |}
  end.

(** ** The script *)

Global Instance result_ret : MRet result := fun A a => Ok a.

Global Instance result_bind : MBind result := fun A B f r =>
  match r with
  | Ok a => f a
  | Raise e => Raise e
  end.

(** [d[key]] for a string key. *)
Fixpoint dict_get (key : string) (d : box) : option yaml :=
  match d with
  | [] => None
  | (YStr k, v) :: d' => if String.eqb k key then Some v else dict_get key d'
  | _ :: d' => dict_get key d'
  end.

(** [d[key] = v] for a string key: the value of the key is replaced where
    it stands, and a new key comes last. *)
Fixpoint dict_set (key : string) (v : yaml) (d : box) : box :=
  match d with
  | [] => [(YStr key, v)]
  | (YStr k, x) :: d' =>
      if String.eqb k key then (YStr k, v) :: d'
      else (YStr k, x) :: dict_set key v d'
  | kv :: d' => kv :: dict_set key v d'
  end.

(** More than [limit] decimal digits, when there is a limit: the integer
    is not below [10 ^ limit].  An integer of less than [3 * limit] bits
    is below, which spares the power for the small ones. *)
Definition digits_over (limit : N) (n : Z) : bool :=
  if (0 <? limit)%N then
    if (3 * Z.of_N limit <=? Z.log2 (Z.abs n))%Z
    then (10 ^ Z.of_N limit <=? Z.abs n)%Z
    else false
  else false.

(** The keys of the [Box] that [Box(entries, box_it_up=True)] makes of
    a mapping: [box_it_up] is no parameter of [Box.__init__] in
    python-box 4 and later, and like every other keyword argument it
    becomes a key, set after the keys of the mapping. *)
Definition boxed (entries : box) : box :=
  dict_set "box_it_up" (YBool true) entries.

Section Script.
Context `{PyLibs}.

(** [Box(cfg, box_it_up=True)]: a mapping gives a [Box]; a string is
    refused ("Cannot extrapolate Box from string"), and so is what is
    neither a mapping nor iterable ("First argument must be mapping or
    iterable"); the keyword argument comes last. *)
Definition Box (cfg : yaml) : result box :=
  entries ← match cfg with
            | YDict entries => Ok entries
            | YStr _ => Raise BoxValueError
            | YList _ | YOther _ => of_sum (box_from_iterable cfg)
            | YNone | YBool _ | YInt _ | YFloat _ => Raise BoxValueError
            end;
  Ok (boxed entries).

(** [v.item] for the names of [attr], none of which is an attribute of a
    built-in type, of [Box] or of [BoxList]: a [Box] answers with the
    value of the key, and other values have no such attribute. *)
Definition getattr (v : yaml) (item : attr) : result yaml :=
  match v with
  | YDict d =>
      match dict_get (attr_name item) d with
      | Some x => Ok x
      | None =>
          match conversion_box d (attr_name item) with
          | Some x => Ok x
          | None => Raise (BoxKeyError item)
          end
      end
  | _ => Raise (AttributeError item)
  end.

(** [format(v, '')], which is [str(v)] for these values: the text of an
    integer is refused beyond the limit on its digits. *)
Definition text_of (limit seed : N) (v : yaml) : result string :=
  match v with
  | YStr s => Ok s
  | YInt n => if digits_over limit n then Raise ValueError else Ok (pretty n)
  | YBool true => Ok "True"
  | YBool false => Ok "False"
  | YNone => Ok "None"
  | YFloat text => Ok text
  | YOther text => of_sum (text limit seed)
  | YList _ | YDict _ => of_sum (collection_str limit seed v)
  end.

(** A replacement field [{v}] of an f-string. *)
Definition format_value (v : yaml) : M string :=
  fun w => (text_of (int_max_str_digits w) (hash_seed w) v, w).

(** [parser.print_help()], that is [_print_message(format_help(),
    sys.stdout)]: nothing for an empty message; else one [write] to
    [sys.stdout], whose error is not caught, or to the error stream when
    there is no [sys.stdout]. *)
Definition print_help (prog : string) : M unit :=
  fun w =>
    let message := format_help prog (columns w) in
    if String.eqb message "" then (Ok tt, w)
    else match sys_stdout w with
         | None => (Ok tt, write_stderr (HelpMessage message) w)
         | Some st => stream_write st message w
         end.

(** [parser.error] writes the usage message and exits with status 2;
    [-h] prints the help and exits with status 0. *)
Definition argument_parsing (prog : string) (arg_strings : list string)
  : M Namespace :=
  match parse_args arg_strings with
  | Parsed args => mret args
  | HelpRequested => print_help prog ;; raise (SystemExit 0)
  | UsageError err =>
      fun w => (Raise (SystemExit 2), write_stderr (UsageMessage prog err) w)
  end.

(** [open(filename, 'r')] *)
Definition open_ (filename : string) : M file_content :=
  fun w =>
    match fs w !! filename with
    | Some (Unopenable e) => (Raise e, w)
    | Some ymlfile => (Ok ymlfile, w)
    | None => (Raise (FileNotFoundError filename), w)
    end.

(** [yaml.load(ymlfile, Loader=yaml.FullLoader)] *)
Definition yaml_load (ymlfile : file_content) : M yaml :=
  match ymlfile with
  | Document cfg => mret cfg
  | Unloadable e | Unopenable e => raise e
  end.

Definition load_config (filename : string) : M box :=
  ymlfile ← open_ filename;
  cfg ← yaml_load ymlfile;
  lift (Box cfg).

(** [config.section.name]: two attribute accesses. *)
Definition config_get (config : box) (section name : attr) : result yaml :=
  s ← getattr (YDict config) section; getattr s name.

Definition field (config : box) (section name : attr) : M yaml :=
  lift (config_get config section name).

(** A replacement field [{config.section.name}]: the value is looked up,
    then turned into text. *)
Definition interpolate (config : box) (section name : attr) : M string :=
  v ← field config section name; format_value v.

(** The restic command of lines 33 to 37, from the texts of its six
    replacement fields. *)
Definition restic_cmd (bin conn bucket client server repo : string)
  : string :=
  bin +:+ " " +:+
  "-r rclone:" +:+ conn +:+ ":" +:+ bucket +:+ "/" +:+
  client +:+ "/" +:+ server +:+ "/" +:+ repo.

(** Lines 28 to 38 of [__main__]: the six [print] statements, each
    replacement field evaluated where it stands. *)
Definition render_exports (config : box) (args : Namespace) : M unit :=
  t ← interpolate config information rclone_connection_name;
  print ("export RCLONE_CONNECTION_NAME=" +:+ t);;
  t ← interpolate config information client_name;
  print ("export CLIENT_NAME=" +:+ t);;
  t ← interpolate config information bucket_name;
  print ("export BUCKET_NAME=" +:+ t);;
  t ← interpolate config information server_name;
  print ("export SERVER_NAME=" +:+ t);;
  print ("export RESTIC_REPO_NAME=" +:+ repo args);;
  bin ← interpolate config binaries restic;
  conn ← interpolate config information rclone_connection_name;
  bucket ← interpolate config information bucket_name;
  client ← interpolate config information client_name;
  server ← interpolate config information server_name;
  print ("export RESTIC_CMD=" +:+ dquote +:+
         restic_cmd bin conn bucket client server (repo args) +:+ dquote).

(** The body of [if __name__ == '__main__']. *)
Definition main (prog : string) (arg_strings : list string) : M unit :=
  args ← argument_parsing prog arg_strings;
  config ← load_config (config args);
  render_exports config args.

(** The end of the script: the exit status is 0 when it runs to its end,
    the code of a [SystemExit], and 1 with a traceback for any other
    exception. *)
Definition exit_status (r : result unit * world) : Z * world :=
  match r with
  | (Ok _, w') => (0, w')
  | (Raise (SystemExit code), w') => (code, w')
  | (Raise (Error e), w') => (1, write_stderr (Traceback e) w')
  end.

(** The end of the process: the interpreter flushes standard output; when
    the process, started in [w0], has written something and the flush
    fails, it says so on the error stream and the exit status is 120. *)
Definition finalize (w0 : world) (r : Z * world) : Z * world :=
  match sys_stdout r.2 with
  | Some st =>
      if negb (String.eqb (stdout r.2) (stdout w0)) &&
         flush_fails st (stdout r.2)
      then (120, write_stderr (ExceptionIgnored OSError) r.2)
      else r
  | None => r
  end.

(** The process: [prog] is the name that [argparse] shows for the
    program, the base name of [sys.argv[0]], and [arg_strings] is
    [sys.argv[1:]]. *)
Definition run (prog : string) (arg_strings : list string) (w : world)
  : Z * world :=
  finalize w (exit_status (main prog arg_strings w)).

(** The six lines for the texts of the five fields. *)
Definition export_lines (conn client bucket server bin repo : string)
  : list string :=
  [ "export RCLONE_CONNECTION_NAME=" +:+ conn;
    "export CLIENT_NAME=" +:+ client;
    "export BUCKET_NAME=" +:+ bucket;
    "export SERVER_NAME=" +:+ server;
    "export RESTIC_REPO_NAME=" +:+ repo;
    "export RESTIC_CMD=" +:+ dquote +:+
      restic_cmd bin conn bucket client server repo +:+ dquote ].

(** The text of a field in the state [w]: the value that the two
    attribute accesses give, turned into text. *)
Definition field_text (w : world) (config : box) (section name : attr)
  : result string :=
  v ← config_get config section name;
  text_of (int_max_str_digits w) (hash_seed w) v.

End Script.

(** ** Notions used in the statements *)

(** The state after [out] has been written to standard output and the
    diagnostics [ds] handed to the error stream. *)
Definition appended (out : string) (ds : list diagnostic) (w : world) : world :=
  {| fs := fs w; environ := environ w; spawned := spawned w;
     columns := columns w; int_max_str_digits := int_max_str_digits w;
     hash_seed := hash_seed w; sys_stdout := sys_stdout w;
     stdout := stdout w +:+ out; stderr := stderr w ++ ds |}.

(** Standard output is open and its [write] accepts the text. *)
Definition accepts (w : world) (text : string) : bool :=
  match sys_stdout w with
  | Some st =>
      match refuses st (stdout w) text with
      | None => true
      | Some _ => false
      end
  | None => false
  end.

(** It accepts the texts one after the other. *)
Fixpoint takes (w : world) (texts : list string) : bool :=
  match texts with
  | [] => true
  | t :: ts => accepts w t && takes (write_stdout t w) ts
  end.

(** The flush at the end of the process succeeds. *)
Definition flushes (w : world) : bool :=
  match sys_stdout w with
  | Some st => negb (flush_fails st (stdout w))
  | None => true
  end.

(** Standard output takes the lines: it is open, it accepts the two
    writes of [print] for each line in turn, and the flush at the end
    succeeds. *)
Definition stdout_takes (w : world) (lines : list string) : bool :=
  takes w (flat_map (λ l, [l; newline]) lines) &&
  flushes (write_stdout (unlines lines) w).

(** A text stream on a device that takes all that is written, for an
    encoding that has bytes for the texts of [encodes]. *)
Definition text_stream (encodes : string → bool) : stream :=
  {| refuses := λ _ text, if encodes text then None else Some EncodeError;
     flush_fails := λ _, false |}.

(** UTF-8 has bytes for every text without a lone surrogate, ASCII for
    the texts of characters below 128. *)
Definition utf_8 (text : string) : bool :=
  forallb (λ c, (c <? 55296)%N || (57343 <? c)%N) (code_points 0 0 text).

Definition ascii_only (text : string) : bool :=
  forallb (λ c, (c <? 128)%N) (code_points 0 0 text).

(** Two states of one process about to write: the same limit on digits,
    the same hash seed, the same standard output with the same text
    written so far. *)
Definition same_process (w1 w2 : world) : Prop :=
  int_max_str_digits w1 = int_max_str_digits w2 ∧
  hash_seed w1 = hash_seed w2 ∧
  sys_stdout w1 = sys_stdout w2 ∧
  stdout w1 = stdout w2.

(** A computation that only writes to standard output, and that does it
    alike in two states of one process: the same result (never an exit)
    after the same text. *)
Definition steady {A : Type} (m : M A) : Prop :=
  ∀ w1 w2, same_process w1 w2 →
    ∃ (r : result A) (out : string),
      m w1 = (r, write_stdout out w1) ∧ m w2 = (r, write_stdout out w2) ∧
      ∀ code, r ≠ Raise (SystemExit code).

Definition is_mapping (v : yaml) : bool :=
  match v with YDict _ => true | _ => false end.

(** The scalars of YAML that [yaml.load] gives as a string, a number, a
    boolean or [None]. *)
Definition is_scalar (v : yaml) : bool :=
  match v with
  | YNone | YBool _ | YInt _ | YFloat _ | YStr _ => true
  | YList _ | YDict _ | YOther _ => false
  end.

Definition no_newline (s : string) : bool := negb (contains "010"%char s).

(** The lines of a text, cut after each newline; a last piece without
    newline counts as a line. *)
Fixpoint lines_of (s : string) : list string :=
  match s with
  | "" => []
  | String c s' =>
      if Ascii.eqb "010"%char c then "" :: lines_of s'
      else match lines_of s' with
           | [] => [String c ""]
           | l :: ls => String c l :: ls
           end
  end.





(** A word that [_parse_known_args] takes for an argument (['A'] in the
    pattern): not the ["--"], and not an option for [_parse_optional]. *)
Definition argument (arg_string : string) : bool :=
  negb (String.eqb arg_string "--") &&
  match parse_optional arg_string with
  | inr None => true
  | _ => false
  end.


(** The spellings of the repository option that take the next word for
    the name: [-r], [--repo] and its abbreviations. *)
Definition long_spellings : list string := ["--r"; "--re"; "--rep"; "--repo"].
Definition repo_spellings : list string := "-r" :: long_spellings.

(** Command lines without the positional: the repository option, once or
    several times, written [-r R], [--repo R], [--repo=R] (or with an
    abbreviation of [--repo]) or [-rR], and possibly a last ["--"]. *)
Inductive repo_words : list string → Prop :=
| repo_words_nil : repo_words []
| repo_words_end : repo_words ["--"]
| repo_words_value (o v : string) (rest : list string) :
    In o repo_spellings → argument v = true → repo_words rest →
    repo_words (o :: v :: rest)
| repo_words_eq (o v : string) (rest : list string) :
    In o long_spellings → repo_words rest →
    repo_words ((o +:+ "=" +:+ v) :: rest)
| repo_words_attached (c : ascii) (v : string) (rest : list string) :
    repo_words rest → repo_words (("-r" +:+ String c v) :: rest).


(** [r] is the end of one of the words. *)
Definition ends_a_word (ws : list string) (r : string) : Prop :=
  ∃ w pre, In w ws ∧ w = pre +:+ r.

(** [c] is the default path or one of the words. *)
Definition default_or_word (ws : list string) (c : string) : Prop :=
  c = "config.yml" ∨ In c ws.

(** [r] comes from the words: it is the end of one of them, or the text
    of the empty list when a word ends with ["--"]; and it is not ["--"]. *)
Definition from_a_word (ws : list string) (r : string) : Prop :=
  (ends_a_word ws r ∨ r = "[]" ∧ ends_a_word ws "--") ∧ r ≠ "--".

(** What the items of a command line may contribute to the result, for
    properties [Qc] of the path and [Qr] of the repository name. *)
Definition item_within (Qc Qr : string → Prop) (i : item) : Prop :=
  match i with
  | A v => Qc v ∧ Qr v
  | O (_, _, Some e) _ => Qr (explicit_value e)
  | O (_, _, None) _ => True
  end.

Definition gathered_within (Qc Qr : string → Prop) (g : gathered) : Prop :=
  (∀ c, seen_config g = Some c → Qc c) ∧ (∀ r, seen_repo g = Some r → Qr r).

(** ** Concrete inputs *)

(** The help of this parser as CPython 3.11 lays it out for the program
    name [config_shell.py], on 80 columns and on 40 columns. *)
Definition help_wide (prog : string) : string :=
  unlines
    [ "usage: " +:+ prog +:+ " [-h] -r REPO [config]";
      "";
      "Load configuration file to environnement variable to use shell command";
      "";
      "positional arguments:";
      "  config                Configuration file (default: config.yml)";
      "";
      "options:";
      "  -h, --help            show this help message and exit";
      "  -r REPO, --repo REPO  Repository name" ].

Definition help_narrow (prog : string) : string :=
  unlines
    [ "usage: " +:+ prog +:+ " [-h] -r REPO";
      "                       [config]";
      "";
      "Load configuration file to";
      "environnement variable to use shell";
      "command";
      "";
      "positional arguments:";
      "  config          Configuration file";
      "                  (default:";
      "                  config.yml)";
      "";
      "options:";
      "  -h, --help      show this help";
      "                  message and exit";
      "  -r REPO, --repo REPO";
      "                  Repository name" ].

(** One behaviour of the libraries, to run the script on concrete inputs:
    keys are not converted, an iterable is refused as a list of numbers
    is, and the help has the two layouts above.  The runs below have no
    document that is not a mapping or a scalar, no nested collection
    among the fields and no key that is not an identifier, and they ask
    for help only as [config_shell.py] on 80 or 40 columns. *)
Definition plain_libs : PyLibs := {|
  format_help := λ prog width,
    if (width <? 80)%nat then help_narrow prog else help_wide prog;
  box_from_iterable := λ _, inl TypeError;
  conversion_box := λ _ _, None;
  collection_str := λ _ _ _, inr "";
|}.

(** A state with the given files, an empty environment, a terminal of 80
    columns, the limit of 4300 digits and standard output in UTF-8,
    before anything has been written. *)
Definition world_with (files : gmap string file_content) : world :=
  {| fs := files; environ := ∅; spawned := []; columns := 80;
     int_max_str_digits := 4300; hash_seed := 0;
     sys_stdout := Some (text_stream utf_8);
     stdout := ""; stderr := [] |}.


(** The configuration of the specification's example. *)
Definition example_config : box :=
  [ (YStr "information", YDict [
       (YStr "rclone_connection_name", YStr "r1");
       (YStr "client_name", YStr "c1");
       (YStr "bucket_name", YStr "b1");
       (YStr "server_name", YStr "s1") ]);
    (YStr "binaries", YDict [ (YStr "restic", YStr "/usr/bin/restic") ]) ].

Definition example_world : world :=
  world_with {[ "config.yml" := Document (YDict example_config) ]}.



(** The example state with standard output in ASCII
    ([PYTHONIOENCODING=ascii]), and started without standard output
    ([>&-]). *)
Definition ascii_world (files : gmap string file_content) : world :=
  {| fs := files; environ := {[ "PYTHONIOENCODING" := "ascii" ]};
     spawned := []; columns := 80;
     int_max_str_digits := 4300; hash_seed := 0;
     sys_stdout := Some (text_stream ascii_only);
     stdout := ""; stderr := [] |}.

Definition closed_world (files : gmap string file_content) : world :=
  {| fs := files; environ := ∅; spawned := []; columns := 80;
     int_max_str_digits := 4300; hash_seed := 0;
     sys_stdout := None;
     stdout := ""; stderr := [] |}.


(** A configuration with the information section and no binaries section. *)
Definition no_binaries_config : box :=
  [ (YStr "information", YDict [
       (YStr "rclone_connection_name", YStr "r1");
       (YStr "client_name", YStr "c1");
       (YStr "bucket_name", YStr "b1");
       (YStr "server_name", YStr "s1") ]) ].

Definition no_binaries_world : world :=
  world_with {[ "config.yml" := Document (YDict no_binaries_config) ]}.

(** A configuration without the client name. *)
Definition no_client_config : box :=
  [ (YStr "information", YDict [
       (YStr "rclone_connection_name", YStr "r1");
       (YStr "bucket_name", YStr "b1");
       (YStr "server_name", YStr "s1") ]);
    (YStr "binaries", YDict [ (YStr "restic", YStr "/usr/bin/restic") ]) ].

Definition no_client_world : world :=
  world_with {[ "config.yml" := Document (YDict no_client_config) ]}.

(** A configuration whose values carry a quote, blanks, shell characters
    and an integer. *)
Definition awkward_config : box :=
  [ (YStr "information", YDict [
       (YStr "rclone_connection_name", YStr "r 1");
       (YStr "client_name", YStr ("c" +:+ dquote +:+ "1"));
       (YStr "bucket_name", YStr "$(id)");
       (YStr "server_name", YInt 42) ]);
    (YStr "binaries", YDict [ (YStr "restic", YStr "restic;ls") ]) ].

Definition awkward_world : world :=
  world_with {[ "config.yml" := Document (YDict awkward_config) ]}.

(** The example with an integer of 4301 digits for the server name (in
    YAML a hexadecimal literal can give it), with and without the
    binaries section. *)
Definition long_integer : yaml := YInt (10 ^ 4300).

Definition long_integer_config : box :=
  [ (YStr "information", YDict [
       (YStr "rclone_connection_name", YStr "r1");
       (YStr "client_name", YStr "c1");
       (YStr "bucket_name", YStr "b1");
       (YStr "server_name", long_integer) ]);
    (YStr "binaries", YDict [ (YStr "restic", YStr "/usr/bin/restic") ]) ].

Definition long_integer_world : world :=
  world_with {[ "config.yml" := Document (YDict long_integer_config) ]}.

Definition long_integer_no_binaries_config : box :=
  [ (YStr "information", YDict [
       (YStr "rclone_connection_name", YStr "r1");
       (YStr "client_name", YStr "c1");
       (YStr "bucket_name", YStr "b1");
       (YStr "server_name", long_integer) ]) ].

Definition long_integer_no_binaries_world : world :=
  world_with
    {[ "config.yml" := Document (YDict long_integer_no_binaries_config) ]}.




(** The example with the client name [café], whose last character is not
    in ASCII. *)
Definition cafe : string :=
  String "c" (String "a" (String "f" (String "195" (String "169" "")))).

Definition cafe_config : box :=
  [ (YStr "information", YDict [
       (YStr "rclone_connection_name", YStr "r1");
       (YStr "client_name", YStr cafe);
       (YStr "bucket_name", YStr "b1");
       (YStr "server_name", YStr "s1") ]);
    (YStr "binaries", YDict [ (YStr "restic", YStr "/usr/bin/restic") ]) ].

Definition cafe_world : world :=
  ascii_world {[ "config.yml" := Document (YDict cafe_config) ]}.



(** A mapping with none of the expected sections. *)
Definition unrelated_config : box := [ (YStr "colour", YStr "blue") ].

Definition unrelated_world : world :=
  world_with {[ "config.yml" := Document (YDict unrelated_config) ]}.

(** A file whose text is the plain scalar [hello], an empty file, and a
    file whose bytes are not text. *)
Definition scalar_world : world :=
  world_with {[ "config.yml" := Document (YStr "hello") ]}.

Definition blank_world : world :=
  world_with {[ "config.yml" := Document YNone ]}.


(** A mapping without the information section, one whose information
    section is a string, and the states that hold them. *)
Definition only_binaries_config : box :=
  [ (YStr "binaries", YDict [ (YStr "restic", YStr "/usr/bin/restic") ]) ].

Definition only_binaries_world : world :=
  world_with {[ "config.yml" := Document (YDict only_binaries_config) ]}.

Definition flat_config : box :=
  [ (YStr "information", YStr "r1");
    (YStr "binaries", YDict [ (YStr "restic", YStr "/usr/bin/restic") ]) ].

Definition flat_world : world :=
  world_with {[ "config.yml" := Document (YDict flat_config) ]}.

(** ** Properties *)

Local Arguments Ascii.eqb : simpl nomatch.
Local Arguments negative_number : simpl never.

(** *** Text *)

Lemma app_assoc_s (a b c : string) : (a +:+ b) +:+ c = a +:+ (b +:+ c).
Proof.
  induction a as [|x a IH]; [reflexivity|].
  unfold String.app in *. cbn. by rewrite IH.
Qed.

Lemma app_nil_r_s (a : string) : a +:+ "" = a.
Proof.
  induction a as [|x a IH]; [reflexivity|].
  unfold String.app in *. cbn. by rewrite IH.
Qed.

Lemma unlines_snoc (ls : list string) (l : string) :
  unlines (ls ++ [l]) = unlines ls +:+ (l +:+ newline).
Proof.
  induction ls as [|x ls IH].
  - cbn. by rewrite app_nil_r_s.
  - change (unlines ((x :: ls) ++ [l]))
      with (x +:+ newline +:+ unlines (ls ++ [l])).
    change (unlines (x :: ls)) with (x +:+ newline +:+ unlines ls).
    by rewrite IH, !app_assoc_s.
Qed.

Lemma write_stdout_nil (w : world) : write_stdout "" w = w.
Proof. destruct w. unfold write_stdout. cbn. by rewrite app_nil_r_s. Qed.

Lemma write_stdout_twice (a b : string) (w : world) :
  write_stdout b (write_stdout a w) = write_stdout (a +:+ b) w.
Proof. unfold write_stdout. cbn. by rewrite app_assoc_s. Qed.

Lemma write_line (ls : list string) (l : string) (w : world) :
  write_stdout (l +:+ newline) (write_stdout (unlines ls) w)
  = write_stdout (unlines (ls ++ [l])) w.
Proof. by rewrite write_stdout_twice, unlines_snoc. Qed.

Lemma write_stdout_appended (out : string) (w : world) :
  write_stdout out w = appended out [] w.
Proof. unfold write_stdout, appended. by rewrite app_nil_r. Qed.

Lemma write_stderr_appended (d : diagnostic) out ds (w : world) :
  write_stderr d (appended out ds w) = appended out (ds ++ [d]) w.
Proof. unfold write_stderr, appended. cbn. by rewrite app_assoc. Qed.

Lemma appended_nil (w : world) : appended "" [] w = w.
Proof. by rewrite <- write_stdout_appended, write_stdout_nil. Qed.

Lemma write_both_appended out (d : diagnostic) (w : world) :
  write_stderr d (write_stdout out w) = appended out [d] w.
Proof. by rewrite write_stdout_appended, write_stderr_appended. Qed.

Lemma write_stderr_only (d : diagnostic) (w : world) :
  write_stderr d w = appended "" [d] w.
Proof. by rewrite <- write_both_appended, write_stdout_nil. Qed.

(** *** The limit on the digits of an integer *)

Lemma digits_over_spec (limit : N) (n : Z) :
  digits_over limit n
  = (0 <? limit)%N && (10 ^ Z.of_N limit <=? Z.abs n)%Z.
Proof.
  unfold digits_over. destruct (0 <? limit)%N eqn:Hlimit; [|done]. cbn.
  destruct (Z.leb_spec (3 * Z.of_N limit) (Z.log2 (Z.abs n))) as [|Hsmall];
    [done|].
  symmetry. apply Z.leb_gt.
  apply N.ltb_lt in Hlimit.
  assert (0 < Z.of_N limit) as Hpos by lia.
  destruct (Z.le_gt_cases (Z.abs n) 0) as [Hle|Hgt].
  { pose proof (Z.pow_pos_nonneg 10 (Z.of_N limit)). lia. }
  apply Z.lt_le_trans with (2 ^ (3 * Z.of_N limit)).
  - apply Z.log2_lt_pow2; lia.
  - rewrite Z.pow_mul_r by lia. apply Z.pow_le_mono_l. lia.
Qed.

(** *** Writing to standard output *)

Lemma takes_app (w : world) (a b : list string) :
  takes w (a ++ b)
  = takes w a && takes (write_stdout (foldr String.app "" a) w) b.
Proof.
  revert w. induction a as [|t a IH]; intros w.
  - cbn. by rewrite write_stdout_nil.
  - cbn [app takes foldr]. rewrite IH, write_stdout_twice.
    by rewrite andb_assoc.
Qed.

Lemma print_taken (l : string) (rest : list string) (w : world) :
  takes w (l :: newline :: rest) = true →
  print l w = (Ok tt, write_stdout (l +:+ newline) w) ∧
  takes (write_stdout (l +:+ newline) w) rest = true.
Proof.
  cbn [takes]. rewrite !andb_true_iff. intros (Hl & Hnl & Hrest).
  rewrite write_stdout_twice in Hrest. split; [|done].
  unfold accepts in Hl, Hnl. unfold print.
  cbn [sys_stdout write_stdout] in Hnl.
  destruct (sys_stdout w) as [st|]; [|done].
  unfold mbind, M_bind, stream_write.
  destruct (refuses st (stdout w) l); [done|].
  cbn [stdout write_stdout] in Hnl |- *.
  destruct (refuses st (stdout w +:+ l) newline); [done|].
  by rewrite write_stdout_twice.
Qed.

(** The outcomes of [print]. *)
Lemma print_cases (l : string) (w : world) :
  (sys_stdout w = None ∧ print l w = (Ok tt, w)) ∨
  (takes w [l; newline] = true ∧
   print l w = (Ok tt, write_stdout (l +:+ newline) w)) ∨
  (∃ st e, sys_stdout w = Some st ∧
           takes w [l; newline] = false ∧
           (print l w = (Raise (Error (error_of e)), w) ∨
            print l w = (Raise (Error (error_of e)), write_stdout l w))).
Proof.
  unfold print, takes, accepts.
  destruct (sys_stdout w) as [st|] eqn:Hst; [|by left]. right.
  unfold mbind, M_bind, stream_write.
  cbn [sys_stdout stdout write_stdout]. rewrite Hst.
  destruct (refuses st (stdout w) l) as [e|].
  { right. exists st, e. split; [done|]. split; [done|]. by left. }
  cbn [stdout write_stdout].
  destruct (refuses st (stdout w +:+ l) newline) as [e|].
  - right. exists st, e. split; [done|]. split; [done|]. by right.
  - left. split; [done|]. by rewrite write_stdout_twice.
Qed.

(** *** Rendering *)

Section Rendering.
Context `{PyLibs}.

Lemma getattr_raises v item e :
  getattr v item = Raise e →
  e = BoxKeyError item ∨ e = AttributeError item.
Proof.
  unfold getattr. destruct v; try (intros [= <-]; by right).
  destruct (dict_get _ _); [done|].
  destruct (conversion_box _ _); [done|].
  intros [= <-]. by left.
Qed.

Lemma config_get_raises config section name e :
  config_get config section name = Raise e →
  ∃ e' : error, e = e' ∧ is_lookup_error e' = true.
Proof.
  unfold config_get, mbind, result_bind.
  destruct (getattr (YDict config) section) as [s|e'] eqn:Hs.
  - intros [-> | ->]%getattr_raises; by eexists.
  - intros [= <-]. apply getattr_raises in Hs as [-> | ->]; by eexists.
Qed.

(** A replacement field leaves the state as it is. *)
Lemma bind_interpolate {B : Type} config section name (f : string → M B)
    out w :
  (interpolate config section name ≫= f) (write_stdout out w)
  = match field_text w config section name with
    | Ok t => f t (write_stdout out w)
    | Raise e => (Raise e, write_stdout out w)
    end.
Proof.
  unfold interpolate, field, format_value, field_text, lift.
  unfold mbind, M_bind, result_bind.
  destruct (config_get config section name) as [v|e]; [|done].
  change (int_max_str_digits (write_stdout out w))
    with (int_max_str_digits w).
  change (hash_seed (write_stdout out w)) with (hash_seed w).
  by destruct (text_of _ _ v).
Qed.

Lemma bind_print_taken {B : Type} ls l rest (f : unit → M B) w :
  takes (write_stdout (unlines ls) w) (l :: newline :: rest) = true →
  (print l ≫= f) (write_stdout (unlines ls) w)
  = f tt (write_stdout (unlines (ls ++ [l])) w).
Proof.
  intros [Hprint _]%print_taken. unfold mbind, M_bind.
  by rewrite Hprint, write_line.
Qed.

Lemma takes_next ls l rest w :
  takes (write_stdout (unlines ls) w) (l :: newline :: rest) = true →
  takes (write_stdout (unlines (ls ++ [l])) w) rest = true.
Proof. intros [_ Hrest]%print_taken. by rewrite write_line in Hrest. Qed.

Lemma takes_start texts w :
  takes w texts = takes (write_stdout (unlines []) w) texts.
Proof. change (unlines []) with "". by rewrite write_stdout_nil. Qed.

(** Steps through [render_exports]: the state is kept in the form
    [write_stdout (unlines ls) w], a field that has a text is read, a
    line that standard output takes is added to [ls]. *)
Ltac start_rendering Htakes :=
  match goal with
  | |- context [render_exports ?config ?args ?w] =>
      replace (render_exports config args w)
        with (render_exports config args (write_stdout (unlines []) w))
        by (change (unlines []) with ""; by rewrite write_stdout_nil)
  end;
  rewrite takes_start in Htakes;
  cbn [flat_map app] in Htakes;
  unfold render_exports.

Ltac read_field Hfield := rewrite bind_interpolate, Hfield.

Ltac printed Htakes :=
  rewrite (bind_print_taken _ _ _ _ _ Htakes);
  apply takes_next in Htakes;
  cbn [app] in Htakes |- *.

Lemma render_exports_ok config args conn client bucket server bin w :
  field_text w config information rclone_connection_name = Ok conn →
  field_text w config information client_name = Ok client →
  field_text w config information bucket_name = Ok bucket →
  field_text w config information server_name = Ok server →
  field_text w config binaries restic = Ok bin →
  takes w (flat_map (λ l, [l; newline])
             (export_lines conn client bucket server bin (repo args)))
  = true →
  render_exports config args w
  = (Ok tt, write_stdout
              (unlines (export_lines conn client bucket server bin (repo args)))
              w).
Proof.
  intros Hconn Hclient Hbucket Hserver Hbin Htakes.
  unfold export_lines in Htakes.
  start_rendering Htakes.
  read_field Hconn. printed Htakes. read_field Hclient. printed Htakes.
  read_field Hbucket. printed Htakes. read_field Hserver. printed Htakes.
  printed Htakes.
  read_field Hbin. read_field Hconn. read_field Hbucket.
  read_field Hclient. read_field Hserver.
  apply print_taken in Htakes as [-> _]. by rewrite write_line.
Qed.

(** The run stops at the first replacement field that has no text, after
    the lines before it. *)
Lemma render_exports_stops_1 config args e w :
  field_text w config information rclone_connection_name = Raise e →
  render_exports config args w = (Raise e, w).
Proof.
  intros Hconn.
  replace (render_exports config args w)
    with (render_exports config args (write_stdout "" w))
    by (by rewrite write_stdout_nil).
  unfold render_exports.
  by rewrite bind_interpolate, Hconn, write_stdout_nil.
Qed.

Lemma render_exports_stops_2 config args conn e w :
  field_text w config information rclone_connection_name = Ok conn →
  field_text w config information client_name = Raise e →
  takes w (flat_map (λ l, [l; newline])
             ["export RCLONE_CONNECTION_NAME=" +:+ conn]) = true →
  render_exports config args w
  = (Raise e, write_stdout
                (unlines ["export RCLONE_CONNECTION_NAME=" +:+ conn]) w).
Proof.
  intros Hconn Hclient Htakes.
  start_rendering Htakes.
  read_field Hconn. printed Htakes. by read_field Hclient.
Qed.

Lemma render_exports_stops_3 config args conn client e w :
  field_text w config information rclone_connection_name = Ok conn →
  field_text w config information client_name = Ok client →
  field_text w config information bucket_name = Raise e →
  takes w (flat_map (λ l, [l; newline])
             [ "export RCLONE_CONNECTION_NAME=" +:+ conn;
               "export CLIENT_NAME=" +:+ client ]) = true →
  render_exports config args w
  = (Raise e, write_stdout
                (unlines [ "export RCLONE_CONNECTION_NAME=" +:+ conn;
                           "export CLIENT_NAME=" +:+ client ]) w).
Proof.
  intros Hconn Hclient Hbucket Htakes.
  start_rendering Htakes.
  read_field Hconn. printed Htakes. read_field Hclient. printed Htakes.
  by read_field Hbucket.
Qed.

Lemma render_exports_stops_4 config args conn client bucket e w :
  field_text w config information rclone_connection_name = Ok conn →
  field_text w config information client_name = Ok client →
  field_text w config information bucket_name = Ok bucket →
  field_text w config information server_name = Raise e →
  takes w (flat_map (λ l, [l; newline])
             [ "export RCLONE_CONNECTION_NAME=" +:+ conn;
               "export CLIENT_NAME=" +:+ client;
               "export BUCKET_NAME=" +:+ bucket ]) = true →
  render_exports config args w
  = (Raise e, write_stdout
                (unlines [ "export RCLONE_CONNECTION_NAME=" +:+ conn;
                           "export CLIENT_NAME=" +:+ client;
                           "export BUCKET_NAME=" +:+ bucket ]) w).
Proof.
  intros Hconn Hclient Hbucket Hserver Htakes.
  start_rendering Htakes.
  read_field Hconn. printed Htakes. read_field Hclient. printed Htakes.
  read_field Hbucket. printed Htakes. by read_field Hserver.
Qed.

Lemma render_exports_stops_5 config args conn client bucket server e w :
  field_text w config information rclone_connection_name = Ok conn →
  field_text w config information client_name = Ok client →
  field_text w config information bucket_name = Ok bucket →
  field_text w config information server_name = Ok server →
  field_text w config binaries restic = Raise e →
  takes w (flat_map (λ l, [l; newline])
             [ "export RCLONE_CONNECTION_NAME=" +:+ conn;
               "export CLIENT_NAME=" +:+ client;
               "export BUCKET_NAME=" +:+ bucket;
               "export SERVER_NAME=" +:+ server;
               "export RESTIC_REPO_NAME=" +:+ repo args ]) = true →
  render_exports config args w
  = (Raise e, write_stdout
                (unlines [ "export RCLONE_CONNECTION_NAME=" +:+ conn;
                           "export CLIENT_NAME=" +:+ client;
                           "export BUCKET_NAME=" +:+ bucket;
                           "export SERVER_NAME=" +:+ server;
                           "export RESTIC_REPO_NAME=" +:+ repo args ]) w).
Proof.
  intros Hconn Hclient Hbucket Hserver Hbin Htakes.
  start_rendering Htakes.
  read_field Hconn. printed Htakes. read_field Hclient. printed Htakes.
  read_field Hbucket. printed Htakes. read_field Hserver. printed Htakes.
  printed Htakes. by read_field Hbin.
Qed.

End Rendering.
(** *** Computations that only write to standard output *)

Lemma same_process_refl (w : world) : same_process w w.
Proof. done. Qed.

Lemma same_process_write (out : string) (w1 w2 : world) :
  same_process w1 w2 →
  same_process (write_stdout out w1) (write_stdout out w2).
Proof.
  intros (Hlimit & Hseed & Hstream & Hout). repeat split; [done..|].
  cbn. by rewrite Hout.
Qed.

Lemma steady_lift {A : Type} (r : result A) :
  (∀ code, r ≠ Raise (SystemExit code)) → steady (lift r).
Proof.
  intros Hr w1 w2 _. exists r, "". by rewrite !write_stdout_nil.
Qed.

Lemma steady_bind {A B : Type} (m : M A) (f : A → M B) :
  steady m → (∀ a, steady (f a)) → steady (m ≫= f).
Proof.
  intros Hm Hf w1 w2 Hw.
  destruct (Hm w1 w2 Hw) as (r & out & Hm1 & Hm2 & Hr).
  unfold mbind, M_bind. rewrite Hm1, Hm2. destruct r as [a|e].
  - destruct (Hf a _ _ (same_process_write out _ _ Hw))
      as (r' & out' & Hf1 & Hf2 & Hr').
    exists r', (out +:+ out'). by rewrite Hf1, Hf2, !write_stdout_twice.
  - exists (Raise e), out. split; [done|]. split; [done|].
    intros code [= ->]. by destruct (Hr code).
Qed.

Lemma steady_stream_write (st : stream) (text : string) :
  steady (stream_write st text).
Proof.
  intros w1 w2 (_ & _ & _ & Hout). unfold stream_write. rewrite Hout.
  destruct (refuses st (stdout w2) text) as [e|].
  - exists (Raise (Error (error_of e))), "". by rewrite !write_stdout_nil.
  - by exists (Ok tt), text.
Qed.

Lemma steady_print (s : string) : steady (print s).
Proof.
  intros w1 w2 Hw. pose proof Hw as (_ & _ & Hstream & _).
  unfold print. rewrite Hstream. destruct (sys_stdout w2) as [st|].
  - apply (steady_bind _ (λ _, stream_write st newline));
      [apply steady_stream_write| |done].
    intros _. apply steady_stream_write.
  - exists (Ok tt), "". by rewrite !write_stdout_nil.
Qed.

Section Steady.
Context `{PyLibs}.

Lemma text_of_no_exit limit seed v code :
  text_of limit seed v ≠ Raise (SystemExit code).
Proof.
  destruct v as [|[]|n| | | | |text]; cbn; try done.
  - by destruct (digits_over limit n).
  - by destruct (collection_str limit seed _).
  - by destruct (collection_str limit seed _).
  - by destruct (text limit seed).
Qed.

Lemma config_get_no_exit config section name code :
  config_get config section name ≠ Raise (SystemExit code).
Proof.
  intros Hget. by apply config_get_raises in Hget as (e & [=] & _).
Qed.

Lemma steady_format_value (v : yaml) : steady (format_value v).
Proof.
  intros w1 w2 (Hlimit & Hseed & _). unfold format_value.
  rewrite Hlimit, Hseed.
  eexists _, "". rewrite !write_stdout_nil. repeat split.
  intros code. apply text_of_no_exit.
Qed.

Lemma steady_interpolate config section name :
  steady (interpolate config section name).
Proof.
  apply steady_bind.
  - apply steady_lift. intros code. apply config_get_no_exit.
  - intros v. apply steady_format_value.
Qed.

Lemma steady_render_exports (config : box) (args : Namespace) :
  steady (render_exports config args).
Proof.
  unfold render_exports.
  repeat first
    [ apply steady_print
    | apply steady_interpolate
    | apply steady_bind; [|intros ?] ].
Qed.

Lemma render_exports_effect config args w :
  ∃ (r : result unit) (out : string),
    render_exports config args w = (r, write_stdout out w) ∧
    ∀ code, r ≠ Raise (SystemExit code).
Proof.
  destruct (steady_render_exports config args w w (same_process_refl w))
    as (r & out & Hr & _ & Hexit).
  by exists r, out.
Qed.

End Steady.

(** *** Runs of the whole script *)

Lemma dict_get_dict_set (key key' : string) (v : yaml) (d : box) :
  key ≠ key' → dict_get key (dict_set key' v d) = dict_get key d.
Proof.
  intros Hne. induction d as [|[k x] d IH].
  - cbn. by rewrite (proj2 (String.eqb_neq key' key)).
  - destruct k; cbn; try done.
    destruct (String.eqb_spec s key') as [->|Hs]; cbn.
    + by rewrite (proj2 (String.eqb_neq key' key)).
    + by rewrite IH.
Qed.


Lemma dict_get_boxed (key : string) (entries : box) :
  key ≠ "box_it_up" → dict_get key (boxed entries) = dict_get key entries.
Proof. apply dict_get_dict_set. Qed.

Lemma finalize_untouched (w0 : world) (status : Z) (w : world) :
  stdout w = stdout w0 → finalize w0 (status, w) = (status, w).
Proof.
  intros Hout. unfold finalize. cbn. rewrite Hout, String.eqb_refl.
  by destruct (sys_stdout w).
Qed.

Lemma finalize_flushes (w0 : world) (status : Z) (w : world) :
  flushes w = true → finalize w0 (status, w) = (status, w).
Proof.
  unfold flushes, finalize. cbn. destruct (sys_stdout w) as [st|]; [|done].
  intros ->%negb_true_iff. by rewrite andb_false_r.
Qed.

Lemma finalize_cases (w0 : world) (status : Z) (w : world) :
  finalize w0 (status, w) = (status, w) ∨
  finalize w0 (status, w) = (120, write_stderr (ExceptionIgnored OSError) w) ∧
  stdout w ≠ stdout w0 ∧ flushes w = false.
Proof.
  unfold finalize, flushes. cbn. destruct (sys_stdout w) as [st|]; [|by left].
  destruct (String.eqb_spec (stdout w) (stdout w0)) as [|Hne]; [by left|].
  destruct (flush_fails st (stdout w)); [by right|by left].
Qed.

Section Runs.
Context `{PyLibs}.

Lemma load_config_spec filename w :
  load_config filename w
  = (match fs w !! filename with
     | None => Raise (FileNotFoundError filename)
     | Some (Unopenable e) | Some (Unloadable e) => Raise e
     | Some (Document cfg) => Box cfg
     end, w).
Proof.
  unfold load_config, open_, mbind, M_bind.
  destruct (fs w !! filename) as [[e|e|cfg]|]; reflexivity.
Qed.

Lemma load_config_mapping filename entries w :
  fs w !! filename = Some (Document (YDict entries)) →
  load_config filename w = (Ok (boxed entries), w).
Proof. intros Hfile. by rewrite load_config_spec, Hfile. Qed.

Lemma load_config_reads filename w :
  load_config filename w = ((load_config filename w).1, w).
Proof. by rewrite load_config_spec. Qed.

Lemma Box_no_exit cfg code : Box cfg ≠ Raise (SystemExit code).
Proof.
  unfold Box, mbind, result_bind.
  destruct cfg; try done; by destruct (box_from_iterable _).
Qed.

Lemma load_config_no_exit filename w code :
  (load_config filename w).1 ≠ Raise (SystemExit code).
Proof.
  rewrite load_config_spec. cbn.
  destruct (fs w !! filename) as [[e|e|cfg]|]; try done.
  apply Box_no_exit.
Qed.

Lemma main_parsed prog arg_strings args w :
  parse_args arg_strings = Parsed args →
  main prog arg_strings w
  = (load_config (config args) ≫= λ config, render_exports config args) w.
Proof.
  intros Hargs. unfold main, argument_parsing. by rewrite Hargs.
Qed.

Lemma main_rendered prog arg_strings args entries w :
  parse_args arg_strings = Parsed args →
  fs w !! config args = Some (Document (YDict entries)) →
  main prog arg_strings w = render_exports (boxed entries) args w.
Proof.
  intros Hargs Hfile. rewrite (main_parsed _ _ _ _ Hargs).
  unfold mbind, M_bind. by rewrite (load_config_mapping _ _ _ Hfile).
Qed.

(** A run that fails before anything is written. *)
Lemma run_raises_at_once prog arg_strings (e : error) w :
  main prog arg_strings w = (Raise e, w) →
  run prog arg_strings w = (1, write_stderr (Traceback e) w).
Proof.
  intros Hmain. unfold run. rewrite Hmain. by apply finalize_untouched.
Qed.

(** A run that fails after the lines [ls]. *)
Lemma run_raises prog arg_strings (e : error) ls w :
  main prog arg_strings w = (Raise e, write_stdout (unlines ls) w) →
  flushes (write_stdout (unlines ls) w) = true →
  run prog arg_strings w
  = (1, write_stderr (Traceback e) (write_stdout (unlines ls) w)).
Proof.
  intros Hmain Hflush. unfold run. rewrite Hmain. by apply finalize_flushes.
Qed.

Lemma run_well_formed prog arg_strings args entries w
    conn client bucket server bin :
  parse_args arg_strings = Parsed args →
  fs w !! config args = Some (Document (YDict entries)) →
  field_text w (boxed entries) information rclone_connection_name = Ok conn →
  field_text w (boxed entries) information client_name = Ok client →
  field_text w (boxed entries) information bucket_name = Ok bucket →
  field_text w (boxed entries) information server_name = Ok server →
  field_text w (boxed entries) binaries restic = Ok bin →
  stdout_takes w (export_lines conn client bucket server bin (repo args))
  = true →
  run prog arg_strings w
  = (0, write_stdout
          (unlines (export_lines conn client bucket server bin (repo args)))
          w).
Proof.
  intros Hargs Hfile Hconn Hclient Hbucket Hserver Hbin
    [Htakes Hflush]%andb_true_iff.
  unfold run. rewrite (main_rendered _ _ _ _ _ Hargs Hfile).
  rewrite (render_exports_ok _ _ _ _ _ _ _ _
             Hconn Hclient Hbucket Hserver Hbin Htakes).
  by apply finalize_flushes.
Qed.

End Runs.

(** *** The command line *)

Lemma eqb_false_l (c d : ascii) : c ≠ d → Ascii.eqb c d = false.
Proof. by intros ?%Ascii.eqb_neq. Qed.

Lemma split_eq_app (s o e : string) :
  split_eq s = Some (o, e) → s = o +:+ "=" +:+ e.
Proof.
  revert o. induction s as [|c s IH]; intros o; [done|]. cbn.
  destruct (Ascii.eqb_spec c "="%char) as [->|_].
  - by intros [= <- <-].
  - destruct (split_eq s) as [[o' e']|]; [|done].
    intros [= <- <-]. by rewrite (IH o' eq_refl).
Qed.



Lemma classify_argument (v : string) (rest : list string) :
  argument v = true →
  classify (v :: rest)
  = match classify rest with
    | inl err => inl err
    | inr (items, after) => inr (A v :: items, after)
    end.
Proof.
  unfold argument. intros [Hv Hparse]%andb_true_iff. cbn [classify].
  apply negb_true_iff in Hv. rewrite Hv.
  by destruct (parse_optional v) as [|[|]].
Qed.

Lemma classify_repo_spelling (o : string) :
  In o repo_spellings →
  ∃ option_string, ∀ rest,
    classify (o :: rest)
    = match classify rest with
      | inl err => inl err
      | inr (items, after) =>
          inr (O (Some Repo, option_string, None) o :: items, after)
      end.
Proof.
  intros [<-|[<-|[<-|[<-|[<-|[]]]]]]; by eexists.
Qed.

Lemma classify_repo_eq (o v : string) :
  In o long_spellings →
  ∀ rest,
    classify ((o +:+ "=" +:+ v) :: rest)
    = match classify rest with
      | inl err => inl err
      | inr (items, after) =>
          inr (O (Some Repo, "--repo", Some v) (o +:+ "=" +:+ v) :: items,
               after)
      end.
Proof.
  intros [<-|[<-|[<-|[<-|[]]]]]; done.
Qed.

Lemma classify_repo_attached (c : ascii) (v : string) :
  ∃ explicit_arg, ∀ rest,
    classify (("-r" +:+ String c v) :: rest)
    = match classify rest with
      | inl err => inl err
      | inr (items, after) =>
          inr (O (Some Repo, "-r", Some explicit_arg) ("-r" +:+ String c v)
                 :: items, after)
      end.
Proof.
  change ("-r" +:+ String c v) with (String "-" (String "r" (String c v))).
  destruct (Ascii.eqb_spec c "="%char) as [->|Hc%eqb_false_l].
  - by exists v.
  - exists (String c v). intros rest. cbn [classify].
    unfold parse_optional, find_option, get_option_tuples.
    cbn. rewrite Hc. by destruct (split_eq v) as [[o e]|].
Qed.



(** *** Checks of the parser on small command lines *)

Example parse_long_option :
  parse_args ["--repo"; "myrepo"]
  = Parsed {| repo := "myrepo"; config := "config.yml" |}.
Proof. reflexivity. Qed.

Example parse_abbreviation :
  parse_args ["--rep=x"; "c.yml"] = Parsed {| repo := "x"; config := "c.yml" |}.
Proof. reflexivity. Qed.

Example parse_ambiguous : parse_args ["--=x"] = UsageError (Ambiguous "--=x").
Proof. reflexivity. Qed.

Example parse_negative_number :
  parse_args ["-r"; "-5"; "--"; "-x"]
  = Parsed {| repo := "-5"; config := "-x" |}.
Proof. reflexivity. Qed.

(** A dash before the Arabic-Indic digit three (U+0663, the bytes 217
    and 163 in UTF-8) is a negative number for [argparse], and so an
    argument. *)
Example parse_unicode_digit :
  parse_args ["-r"; "x"; String "-" (String "217" (String "163" ""))]
  = Parsed {| repo := "x";
              config := String "-" (String "217" (String "163" "")) |}.
Proof. reflexivity. Qed.

Example parse_dashes_for_value :
  parse_args ["-r"; "--"; "x"] = UsageError ExpectedOneArgument.
Proof. reflexivity. Qed.

Example parse_dashes_alone :
  parse_args ["a"; "-r=x"; "--"] = UsageError (Unrecognized ["--"]).
Proof. reflexivity. Qed.

Example parse_option_for_value :
  parse_args ["-r"; "-x"] = UsageError ExpectedOneArgument.
Proof. reflexivity. Qed.

Example parse_unknown_option :
  parse_args ["-r"; "x"; "-v"] = UsageError (Unrecognized ["-v"]).
Proof. reflexivity. Qed.

Example parse_help_cluster : parse_args ["-x"; "-hr"; "v"] = HelpRequested.
Proof. reflexivity. Qed.

Example parse_help_empty_explicit :
  parse_args ["-h="] = UsageError (IgnoredExplicitArgument "").
Proof. reflexivity. Qed.




(** *** More of the command line *)


Lemma get_option_tuples_explicit (a : string) act o e :
  In (act, o, Some e) (get_option_tuples a) → ∃ pre, a = pre +:+ e.
Proof.
  unfold get_option_tuples. destruct a as [|c0 [|c1 s]]; [done..|].
  destruct (Ascii.eqb c1 "-").
  - destruct (split_eq _) as [[p e']|] eqn:Hsplit.
    + intros (oa & [= _ _ <-] & _)%in_map_iff.
      apply split_eq_app in Hsplit. exists (p +:+ "=").
      by rewrite Hsplit, app_assoc_s.
    + by intros (oa & [=] & _)%in_map_iff.
  - intros (oa & _ & Hoa)%list_elem_of_In%list_elem_of_omap.
    destruct (String.eqb _ _).
    + injection Hoa as _ _ <-. by exists (String c0 (String c1 "")).
    + by destruct (startswith _ _).
Qed.

Lemma parse_optional_explicit (a : string) act o e :
  parse_optional a = inr (Some (act, o, Some e)) → ∃ pre, a = pre +:+ e.
Proof.
  unfold parse_optional. destruct a as [|c rest]; [done|].
  destruct (negb (Ascii.eqb c "-")); [done|].
  destruct (find_option _); [done|].
  destruct (String.eqb rest ""); [done|]. cbv zeta.
  destruct (split_eq _) as [[o' e']|] eqn:Hsplit.
  - destruct (find_option o').
    + intros [= _ _ <-]. apply split_eq_app in Hsplit. exists (o' +:+ "=").
      by rewrite Hsplit, app_assoc_s.
    + destruct (get_option_tuples _) as [|t [|t' ts]] eqn:Htuples; [| |done].
      * destruct (negative_number _); [done|]. by destruct (contains _ _).
      * intros [= ->]. apply (get_option_tuples_explicit _ act o).
        rewrite Htuples. by left.
  - destruct (get_option_tuples _) as [|t [|t' ts]] eqn:Htuples; [| |done].
    + destruct (negative_number _); [done|]. by destruct (contains _ _).
    + intros [= ->]. apply (get_option_tuples_explicit _ act o).
      rewrite Htuples. by left.
Qed.


Lemma ends_a_word_cons (a : string) (ws : list string) (r : string) :
  ends_a_word ws r → ends_a_word (a :: ws) r.
Proof.
  intros (w & pre & Hin & Hw). exists w, pre. split; [by right|done].
Qed.

Lemma from_a_word_cons (a : string) (ws : list string) (r : string) :
  from_a_word ws r → from_a_word (a :: ws) r.
Proof.
  intros [[Hr|[Hr Hdashes]] Hne]; (split; [|done]).
  - left. by apply ends_a_word_cons.
  - right. split; [done|]. by apply ends_a_word_cons.
Qed.

Lemma from_a_word_explicit (a pre e : string) (ws : list string) :
  a = pre +:+ e → from_a_word (a :: ws) (explicit_value e).
Proof.
  intros Ha. unfold explicit_value.
  destruct (String.eqb_spec e "--") as [->|Hne].
  - split; [|done]. right. split; [done|]. exists a, pre. split; [by left|done].
  - split; [|done]. left. exists a, pre. split; [by left|done].
Qed.

Lemma item_within_impl (Qc Qr Qc' Qr' : string → Prop) (i : item) :
  (∀ c, Qc c → Qc' c) → (∀ r, Qr r → Qr' r) →
  item_within Qc Qr i → item_within Qc' Qr' i.
Proof.
  intros Hc Hr. destruct i as [v|[[act o] [e|]] s]; cbn; [|auto..].
  intros [??]. auto.
Qed.

(** The items of a command line are made of its words. *)
Lemma classify_within (ws : list string) items after :
  classify ws = inr (items, after) →
  Forall (item_within (λ c, In c ws) (from_a_word ws)) items ∧
  ∀ post, after = Some post → Forall (λ c, In c ws) post.
Proof.
  revert items after. induction ws as [|a ws IH]; intros items after.
  - intros [= <- <-]. by split.
  - cbn [classify]. destruct (String.eqb_spec a "--") as [->|Hdashes].
    + intros [= <- <-]. split; [done|]. intros post [= <-].
      apply Forall_forall. intros c Hc%list_elem_of_In. by right.
    + destruct (parse_optional a) as [err|t] eqn:Ha; [done|].
      destruct (classify ws) as [err|[items' after']]; [done|].
      intros [= <- <-]. destruct (IH _ _ eq_refl) as [Hitems Hafter]. split.
      * constructor.
        -- destruct t as [[[act o] [e|]]|]; cbn; [|done|].
           ++ destruct (parse_optional_explicit _ _ _ _ Ha) as (pre & Hpre).
              by apply (from_a_word_explicit a pre).
           ++ split; [by left|]. split; [|done]. left.
              exists a, "". split; [by left|done].
        -- eapply Forall_impl; [done|]. intros i.
           apply item_within_impl; [by right|apply from_a_word_cons].
      * intros post Hpost. eapply Forall_impl; [by apply Hafter|].
        intros c Hc. by right.
Qed.

Lemma cluster_not_parsed (explicit_arg : string) rest args :
  cluster explicit_arg rest ≠ Parsed args.
Proof.
  induction explicit_arg as [|c e IH]; [done|]. cbn [cluster].
  destruct (find_option _) as [[]|]; [| |done].
  - by destruct (String.eqb e "").
  - destruct (String.eqb e ""); [|done]. by destruct (repo_argument rest).
Qed.

Lemma arguments_within (Qc Qr : string → Prop) (items : list item) :
  Forall (item_within Qc Qr) items → existsb is_O items = false →
  Forall Qc (map arg_string_of items).
Proof.
  induction 1 as [|i items Hi _ IH]; [by constructor|].
  destruct i as [v|t s]; [|done]. cbn. intros Hrest.
  constructor; [by destruct Hi|by apply IH].
Qed.

Lemma finish_within (Qc Qr : string → Prop) tail after g args :
  Qc "config.yml" → Forall Qc tail →
  (∀ post, after = Some post → Forall Qc post) →
  gathered_within Qc Qr g →
  finish tail after g = Parsed args →
  Qc (config args) ∧ Qr (repo args).
Proof.
  intros Hdefault Htail Hafter [Hconfig Hrepo]. unfold finish.
  destruct (seen_config g) as [c|] eqn:Hc.
  - cbn. rewrite Hc. destruct (seen_repo g) as [r|] eqn:Hr; [|done].
    destruct (extras g ++ remaining tail after)%list; [|done].
    intros [= <-]. cbn. auto.
  - destruct (seen_repo g) as [r|] eqn:Hr.
    2: { destruct tail as [|v [|v' tail']], after as [[|p post]|];
           cbn; by rewrite Hr. }
    specialize (Hrepo r eq_refl).
    destruct tail as [|v [|v' tail']], after as [[|p post]|]; cbn; rewrite Hr;
      try done;
      (destruct (extras g ++ _)%list || destruct (extras g)); try done;
      intros [= <-]; cbn; (split; [|done]); try done;
      first [ by inversion Htail
            | specialize (Hafter _ eq_refl); by inversion Hafter ].
Qed.

Lemma gathered_within_add_extras (Qc Qr : string → Prop) l g :
  gathered_within Qc Qr g → gathered_within Qc Qr (add_extras l g).
Proof. done. Qed.

Lemma gathered_within_set_config (Qc Qr : string → Prop) v g :
  Qc v → gathered_within Qc Qr g → gathered_within Qc Qr (set_config v g).
Proof. intros Hv [_ Hrepo]. split; [|done]. cbn. by intros c [= <-]. Qed.

Lemma gathered_within_set_repo (Qc Qr : string → Prop) r g :
  Qr r → gathered_within Qc Qr g → gathered_within Qc Qr (set_repo r g).
Proof. intros Hr [Hconfig _]. split; [done|]. cbn. by intros c [= <-]. Qed.

Lemma consume_within (Qc Qr : string → Prop) (n : nat) :
  Qc "config.yml" →
  ∀ items after g args,
    (length items ≤ n)%nat →
    Forall (item_within Qc Qr) items →
    (∀ post, after = Some post → Forall Qc post) →
    gathered_within Qc Qr g →
    consume items after g = Parsed args →
    Qc (config args) ∧ Qr (repo args).
Proof.
  intros Hdefault.
  induction n as [|n IH]; intros items after g args Hlen Hitems Hafter Hg.
  - destruct items; [|cbn in Hlen; lia]. cbn.
    by apply finish_within.
  - destruct items as [|i rest]; [cbn; by apply finish_within|].
    cbn [consume]. cbn in Hlen.
    destruct (negb (existsb is_O (i :: rest))) eqn:HO.
    { apply finish_within; [done| |done..].
      eapply arguments_within; [done|]. by apply negb_true_iff. }
    inversion Hitems as [|? ? Hi Hrest]; subst.
    destruct i as [v|[[[[]|] o] [e|]] s].
    + destruct Hi as [Hv _]. destruct (seen_config g).
      * apply IH; [lia|done..|]. by apply gathered_within_add_extras.
      * apply IH; [lia|done..|]. by apply gathered_within_set_config.
    + destruct (_ && _); [|done]. intros Hcluster.
      by apply cluster_not_parsed in Hcluster.
    + done.
    + apply IH; [lia|done..|]. by apply gathered_within_set_repo.
    + destruct rest as [|[v|] rest']; [done| |done].
      inversion Hrest as [|? ? Hv Hrest']; subst. destruct Hv as [_ Hv].
      cbn in Hlen.
      apply IH; [lia|done..|]. by apply gathered_within_set_repo.
    + apply IH; [lia|done..|]. by apply gathered_within_add_extras.
    + apply IH; [lia|done..|]. by apply gathered_within_add_extras.
Qed.

(** A repository name that is given before does not change what is read
    after it. *)
Lemma finish_overrides tail after g g' args :
  seen_config g' = seen_config g → extras g' = extras g →
  seen_repo g' = seen_repo g ∨ seen_repo g = None →
  finish tail after g = Parsed args → finish tail after g' = Parsed args.
Proof.
  intros Hconfig Hextras Hrepo. unfold finish. rewrite Hconfig.
  destruct (seen_config g) eqn:Hc, tail as [|v [|v' tail']],
    after as [[|p post]|];
    cbn; rewrite ?Hconfig, ?Hc, ?Hextras;
    (destruct Hrepo as [->|Hrepo]; [done|by rewrite Hrepo]).
Qed.

Lemma consume_overrides (n : nat) :
  ∀ items after g g' args,
    (length items ≤ n)%nat →
    seen_config g' = seen_config g → extras g' = extras g →
    seen_repo g' = seen_repo g ∨ seen_repo g = None →
    consume items after g = Parsed args → consume items after g' = Parsed args.
Proof.
  induction n as [|n IH];
    intros items after g g' args Hlen Hconfig Hextras Hrepo.
  - destruct items; [|cbn in Hlen; lia]. cbn. by apply finish_overrides.
  - destruct items as [|i rest]; [cbn; by apply finish_overrides|].
    cbn [consume]. cbn in Hlen.
    destruct (negb (existsb is_O (i :: rest))); [by apply finish_overrides|].
    destruct i as [v|[[[[]|] o] [e|]] s]; try done.
    + rewrite Hconfig. destruct (seen_config g) eqn:Hc.
      * apply IH; [lia|cbn; congruence..|done].
      * apply IH; [lia|done..].
    + apply IH; [lia|done..|by left].
    + destruct rest as [|[v|] rest']; [done| |done]. cbn in Hlen.
      apply IH; [lia|done..|by left].
    + apply IH; [lia|cbn; congruence..|done].
    + apply IH; [lia|cbn; congruence..|done].
Qed.

(** The repository option, written once or several times, in front of
    other words. *)
Lemma repo_words_prefix (ws : list string) :
  repo_words ws → ¬ In "--" ws →
  ∃ items,
    (∀ tail titems tafter,
       classify tail = inr (titems, tafter) →
       classify (ws ++ tail) = inr ((items ++ titems)%list, tafter)) ∧
    ∀ r0, ∃ r, ∀ g titems tafter,
      consume (items ++ titems) tafter (set_repo r0 g)
      = consume titems tafter (set_repo r g).
Proof.
  induction 1 as [| |o v rest Ho Hv _ IH|o v rest Ho _ IH|c v rest _ IH];
    intros Hdashes.
  - exists []. split; [done|]. intros r0. by exists r0.
  - destruct Hdashes. by left.
  - destruct IH as (items & Hc & IH).
    { intros Hin. apply Hdashes. by do 2 right. }
    destruct (classify_repo_spelling o Ho) as (option_string & Ho').
    exists (O (Some Repo, option_string, None) o :: A v :: items). split.
    + intros tail titems tafter Htail. cbn [app].
      by rewrite Ho', (classify_argument v _ Hv), (Hc _ _ _ Htail).
    + intros r0. destruct (IH v) as (r & Hr). exists r.
      intros g titems tafter. by rewrite <- Hr.
  - destruct IH as (items & Hc & IH).
    { intros Hin. apply Hdashes. by right. }
    exists (O (Some Repo, "--repo", Some v) (o +:+ "=" +:+ v) :: items). split.
    + intros tail titems tafter Htail. cbn [app].
      by rewrite (classify_repo_eq o v Ho), (Hc _ _ _ Htail).
    + intros r0. destruct (IH (explicit_value v)) as (r & Hr). exists r.
      intros g titems tafter. by rewrite <- Hr.
  - destruct IH as (items & Hc & IH).
    { intros Hin. apply Hdashes. by right. }
    destruct (classify_repo_attached c v) as (e & He).
    exists (O (Some Repo, "-r", Some e) ("-r" +:+ String c v) :: items). split.
    + intros tail titems tafter Htail. cbn [app].
      by rewrite He, (Hc _ _ _ Htail).
    + intros r0. destruct (IH (explicit_value e)) as (r & Hr). exists r.
      intros g titems tafter. by rewrite <- Hr.
Qed.

Lemma repo_words_before (ws : list string) :
  repo_words ws → ¬ In "--" ws → ws ≠ [] →
  ∃ items r,
    (∀ tail titems tafter,
       classify tail = inr (titems, tafter) →
       classify (ws ++ tail) = inr ((items ++ titems)%list, tafter)) ∧
    ∀ g titems tafter,
      consume (items ++ titems) tafter g
      = consume titems tafter (set_repo r g).
Proof.
  intros Hws Hdashes Hne.
  destruct Hws as [| |o v rest Ho Hv Hrest|o v rest Ho Hrest|c v rest Hrest].
  - done.
  - destruct Hdashes. by left.
  - destruct (repo_words_prefix rest Hrest) as (items & Hc & Hconsume).
    { intros Hin. apply Hdashes. by do 2 right. }
    destruct (classify_repo_spelling o Ho) as (option_string & Ho').
    destruct (Hconsume v) as (r & Hr).
    exists (O (Some Repo, option_string, None) o :: A v :: items), r. split.
    + intros tail titems tafter Htail. cbn [app].
      by rewrite Ho', (classify_argument v _ Hv), (Hc _ _ _ Htail).
    + intros g titems tafter. by rewrite <- Hr.
  - destruct (repo_words_prefix rest Hrest) as (items & Hc & Hconsume).
    { intros Hin. apply Hdashes. by right. }
    destruct (Hconsume (explicit_value v)) as (r & Hr).
    exists (O (Some Repo, "--repo", Some v) (o +:+ "=" +:+ v) :: items), r.
    split.
    + intros tail titems tafter Htail. cbn [app].
      by rewrite (classify_repo_eq o v Ho), (Hc _ _ _ Htail).
    + intros g titems tafter. by rewrite <- Hr.
  - destruct (repo_words_prefix rest Hrest) as (items & Hc & Hconsume).
    { intros Hin. apply Hdashes. by right. }
    destruct (classify_repo_attached c v) as (e & He).
    destruct (Hconsume (explicit_value e)) as (r & Hr).
    exists (O (Some Repo, "-r", Some e) ("-r" +:+ String c v) :: items), r.
    split.
    + intros tail titems tafter Htail. cbn [app].
      by rewrite He, (Hc _ _ _ Htail).
    + intros g titems tafter. by rewrite <- Hr.
Qed.

(** X10: after the repository option, a ["--"] ends the options: the
    word that follows is the configuration path whatever it looks like
    (even [-h] or [-r]), no word after ["--"] gives the default path, and
    more than one word is refused. *)
Theorem words_after_dashes (ws : list string) :
  repo_words ws → ¬ In "--" ws → ws ≠ [] →
  ∃ R, ∀ post,
    parse_args (ws ++ "--" :: post)
    = match post with
      | [] => Parsed {| repo := R; config := "config.yml" |}
      | [P] => Parsed {| repo := R; config := P |}
      | _ :: unknown => UsageError (Unrecognized unknown)
      end.
Proof.
  intros Hws Hdashes Hne.
  destruct (repo_words_before ws Hws Hdashes Hne) as (items & R & Hc & Hconsume).
  exists R. intros post. unfold parse_args.
  rewrite (Hc ("--" :: post) [] (Some post) eq_refl), Hconsume.
  by destruct post as [|P [|Q post]].
Qed.

Lemma words_after_dashes_example :
  ∃ R, ∀ post,
    parse_args (["-r"; "first"; "--rep=second"] ++ "--" :: post)
    = match post with
      | [] => Parsed {| repo := R; config := "config.yml" |}
      | [P] => Parsed {| repo := R; config := P |}
      | _ :: unknown => UsageError (Unrecognized unknown)
      end.
Proof.
  apply (words_after_dashes ["-r"; "first"; "--rep=second"]).
  - apply (repo_words_value "-r" "first"); [by left|reflexivity|].
    apply (repo_words_eq "--rep" "second"); [by right; right; left|].
    apply repo_words_nil.
  - intros [Hin|[Hin|[Hin|[]]]]; discriminate Hin.
  - discriminate.
Defined.

(** X11: the last repository name wins, and an earlier one changes
    nothing else: when a command line is accepted, it is accepted with the
    same result after any number of repository options is written in
    front of it. *)
Theorem earlier_repo_overridden (ws1 ws2 : list string) (args : Namespace) :
  repo_words ws1 → ¬ In "--" ws1 →
  parse_args ws2 = Parsed args →
  parse_args (ws1 ++ ws2) = Parsed args.
Proof.
  intros Hws Hdashes Hargs.
  destruct ws1 as [|w ws1]; [done|].
  destruct (repo_words_before _ Hws Hdashes) as (items & r & Hc & Hconsume);
    [done|].
  unfold parse_args in *.
  destruct (classify ws2) as [err|[titems tafter]] eqn:Hws2; [done|].
  rewrite (Hc _ _ _ Hws2), Hconsume.
  by apply (consume_overrides (length titems) titems tafter
              {| seen_repo := None; seen_config := None; extras := [] |});
    [..|right|].
Qed.

Lemma earlier_repo_overridden_example :
  parse_args (["-r"; "old"; "--repo=older"] ++ ["backup.yml"; "-rnew"])
  = Parsed {| repo := "new"; config := "backup.yml" |}.
Proof.
  apply (earlier_repo_overridden ["-r"; "old"; "--repo=older"]
           ["backup.yml"; "-rnew"]).
  - apply (repo_words_value "-r" "old"); [by left|reflexivity|].
    apply (repo_words_eq "--repo" "older"); [by do 3 right; left|].
    apply repo_words_nil.
  - intros [Hin|[Hin|[Hin|[]]]]; discriminate Hin.
  - reflexivity.
Defined.

(** X12: [parse_args] invents nothing: in an accepted command line the
    configuration path is the default ["config.yml"] or one of the words,
    and the repository name is a word or the end of a word; the one
    exception is a word that ends with ["--"] (as [--repo=--]), for which
    [argparse] may give the empty list, written [[]]. *)
Theorem parsed_values_from_words (ws : list string) (args : Namespace) :
  parse_args ws = Parsed args →
  default_or_word ws (config args) ∧
  (ends_a_word ws (repo args) ∨
   repo args = "[]" ∧ ends_a_word ws "--").
Proof.
  unfold parse_args.
  destruct (classify ws) as [err|[items after]] eqn:Hws; [done|].
  destruct (classify_within _ _ _ Hws) as [Hitems Hafter]. intros Hargs.
  destruct (consume_within (default_or_word ws) (from_a_word ws)
              (length items) (or_introl eq_refl) items after
              {| seen_repo := None; seen_config := None; extras := [] |} args)
    as [Hconfig [Hrepo _]]; try done.
  - eapply Forall_impl; [done|]. intros i.
    apply item_within_impl; [by right|done].
  - intros post Hpost. eapply Forall_impl; [by apply Hafter|].
    intros c Hc. by right.
Qed.

Lemma parsed_values_from_words_example :
  default_or_word ["backup.yml"; "-rmyrepo"] "backup.yml" ∧
  (ends_a_word ["backup.yml"; "-rmyrepo"] "myrepo" ∨
   "myrepo" = "[]" ∧ ends_a_word ["backup.yml"; "-rmyrepo"] "--").
Proof.
  apply (parsed_values_from_words ["backup.yml"; "-rmyrepo"]
           {| repo := "myrepo"; config := "backup.yml" |}).
  reflexivity.
Defined.


(** *** Reading the output back *)

Lemma no_newline_app (a b : string) :
  no_newline (a +:+ b) = no_newline a && no_newline b.
Proof.
  unfold no_newline. induction a as [|c a IH]; [done|].
  change (String c a +:+ b) with (String c (a +:+ b)). cbn [contains].
  rewrite !negb_orb, IH. by rewrite andb_assoc.
Qed.

Lemma lines_of_line (l rest : string) :
  no_newline l = true →
  lines_of (l +:+ newline +:+ rest) = l :: lines_of rest.
Proof.
  unfold no_newline. induction l as [|c l IH]; [done|].
  cbn [contains]. rewrite negb_orb. intros [Hc Hl]%andb_true_iff.
  change (String c l +:+ newline +:+ rest)
    with (String c (l +:+ newline +:+ rest)).
  cbn [lines_of]. apply negb_true_iff in Hc. by rewrite Hc, (IH Hl).
Qed.

Lemma lines_of_unlines (ls : list string) :
  forallb no_newline ls = true → lines_of (unlines ls) = ls.
Proof.
  induction ls as [|l ls IH]; [done|].
  cbn [forallb]. intros [Hl Hls]%andb_true_iff.
  change (unlines (l :: ls)) with (l +:+ newline +:+ unlines ls).
  by rewrite (lines_of_line _ _ Hl), (IH Hls).
Qed.

Lemma lines_of_no_newline (s : string) : forallb no_newline (lines_of s) = true.
Proof.
  induction s as [|c s IH]; [done|]. cbn [lines_of].
  destruct (Ascii.eqb "010" c) eqn:Hc; [done|].
  destruct (lines_of s) as [|l ls]; cbn [forallb] in *.
  - unfold no_newline. cbn [contains]. by rewrite Hc.
  - unfold no_newline in *. cbn [contains]. by rewrite Hc.
Qed.

Lemma export_lines_no_newline (conn client bucket server bin repo : string) :
  forallb no_newline (export_lines conn client bucket server bin repo)
  = forallb no_newline [conn; client; bucket; server; bin; repo].
Proof.
  unfold export_lines, restic_cmd. cbn [forallb].
  rewrite !no_newline_app.
  repeat match goal with
         | |- context [no_newline (String ?c ?s)] =>
             change (no_newline (String c s)) with true
         end.
  change (no_newline dquote) with true.
  cbn [andb].
  destruct (no_newline conn), (no_newline client), (no_newline bucket),
    (no_newline server), (no_newline bin), (no_newline repo); reflexivity.
Qed.

(** *** Runs on the concrete inputs *)

Lemma long_integer_has_no_text (seed : N) :
  @text_of plain_libs 4300 seed long_integer = Raise ValueError.
Proof.
  unfold long_integer, text_of. rewrite digits_over_spec.
  change (Z.of_N 4300) with 4300.
  rewrite Z.abs_eq by (apply Z.pow_nonneg; lia).
  by rewrite Z.leb_refl.
Qed.

(** An integer of 4301 digits for the server name: three lines, then the
    [ValueError] of the fourth replacement field. *)
Lemma run_long_integer :
  @run plain_libs "config_shell.py" ["-r"; "myrepo"] long_integer_world
  = (1, write_stderr (Traceback ValueError)
          (write_stdout
             (unlines [ "export RCLONE_CONNECTION_NAME=r1";
                        "export CLIENT_NAME=c1";
                        "export BUCKET_NAME=b1" ])
             long_integer_world)).
Proof.
  apply run_raises; [|reflexivity].
  rewrite (main_rendered _ _ {| repo := "myrepo"; config := "config.yml" |}
             long_integer_config); [|reflexivity..].
  apply (render_exports_stops_4 _ _ "r1" "c1" "b1");
    [reflexivity..| |reflexivity].
  unfold field_text.
  change (config_get (boxed long_integer_config) information server_name)
    with (Ok long_integer).
  apply long_integer_has_no_text.
Qed.

Lemma run_long_integer_no_binaries :
  @run plain_libs "config_shell.py" ["-r"; "myrepo"]
    long_integer_no_binaries_world
  = (1, write_stderr (Traceback ValueError)
          (write_stdout
             (unlines [ "export RCLONE_CONNECTION_NAME=r1";
                        "export CLIENT_NAME=c1";
                        "export BUCKET_NAME=b1" ])
             long_integer_no_binaries_world)).
Proof.
  apply run_raises; [|reflexivity].
  rewrite (main_rendered _ _ {| repo := "myrepo"; config := "config.yml" |}
             long_integer_no_binaries_config); [|reflexivity..].
  apply (render_exports_stops_4 _ _ "r1" "c1" "b1");
    [reflexivity..| |reflexivity].
  unfold field_text.
  change (config_get (boxed long_integer_no_binaries_config)
            information server_name)
    with (Ok long_integer).
  apply long_integer_has_no_text.
Qed.

(** A client name that is not in ASCII, on a standard output in ASCII: one
    line, then the [UnicodeEncodeError] of the second [print]. *)
Lemma run_cafe :
  @run plain_libs "config_shell.py" ["-r"; "myrepo"] cafe_world
  = (1, write_stderr (Traceback UnicodeEncodeError)
          (write_stdout (unlines ["export RCLONE_CONNECTION_NAME=r1"])
             cafe_world)).
Proof. reflexivity. Qed.

(** No standard output: nothing is written, and the exit status is 0. *)
Lemma run_closed :
  @run plain_libs "config_shell.py" ["-r"; "myrepo"]
    (closed_world {[ "config.yml" := Document (YDict example_config) ]})
  = (0, closed_world {[ "config.yml" := Document (YDict example_config) ]}).
Proof. reflexivity. Qed.

(** *** The export lines *)

(** C1, as the code has it: for a well-formed configuration (the four
    information fields and binaries.restic can be read) whose five values
    have a text, a repository name and texts without a newline, and a
    standard output that takes the six lines, the script exits with status
    0 after writing exactly six lines to standard output, which begin with
    [export RCLONE_CONNECTION_NAME=], [export CLIENT_NAME=],
    [export BUCKET_NAME=], [export SERVER_NAME=], [export RESTIC_REPO_NAME=]
    and [export RESTIC_CMD=] in this order; line 5 is
    [export RESTIC_REPO_NAME=] followed by the repository name. *)
Theorem six_export_lines `{PyLibs} prog arg_strings args entries w
    conn client bucket server bin :
  parse_args arg_strings = Parsed args →
  fs w !! config args = Some (Document (YDict entries)) →
  field_text w (boxed entries) information rclone_connection_name = Ok conn →
  field_text w (boxed entries) information client_name = Ok client →
  field_text w (boxed entries) information bucket_name = Ok bucket →
  field_text w (boxed entries) information server_name = Ok server →
  field_text w (boxed entries) binaries restic = Ok bin →
  forallb no_newline [conn; client; bucket; server; bin; repo args] = true →
  stdout_takes w (export_lines conn client bucket server bin (repo args))
  = true →
  ∃ out l1 l2 l3 l4 l5 l6,
    run prog arg_strings w = (0, write_stdout out w) ∧
    lines_of out = [l1; l2; l3; l4; l5; l6] ∧
    startswith l1 "export RCLONE_CONNECTION_NAME=" = true ∧
    startswith l2 "export CLIENT_NAME=" = true ∧
    startswith l3 "export BUCKET_NAME=" = true ∧
    startswith l4 "export SERVER_NAME=" = true ∧
    l5 = "export RESTIC_REPO_NAME=" +:+ repo args ∧
    startswith l6 "export RESTIC_CMD=" = true.
Proof.
  intros Hargs Hfile Hconn Hclient Hbucket Hserver Hbin Hplain Htakes.
  eexists _, _, _, _, _, _, _. split; [|split].
  - exact (run_well_formed _ _ _ _ _ _ _ _ _ _ Hargs Hfile
             Hconn Hclient Hbucket Hserver Hbin Htakes).
  - rewrite <- export_lines_no_newline in Hplain.
    exact (lines_of_unlines _ Hplain).
  - repeat split; reflexivity.
Qed.

Lemma six_export_lines_example :
  ∃ out l1 l2 l3 l4 l5 l6,
    @run plain_libs "config_shell.py" ["-r"; "myrepo"] example_world
    = (0, write_stdout out example_world) ∧
    lines_of out = [l1; l2; l3; l4; l5; l6] ∧
    startswith l1 "export RCLONE_CONNECTION_NAME=" = true ∧
    startswith l2 "export CLIENT_NAME=" = true ∧
    startswith l3 "export BUCKET_NAME=" = true ∧
    startswith l4 "export SERVER_NAME=" = true ∧
    l5 = "export RESTIC_REPO_NAME=" +:+ "myrepo" ∧
    startswith l6 "export RESTIC_CMD=" = true.
Proof.
  apply (@six_export_lines plain_libs "config_shell.py" ["-r"; "myrepo"]
           {| repo := "myrepo"; config := "config.yml" |}
           example_config example_world
           "r1" "c1" "b1" "s1" "/usr/bin/restic");
    reflexivity.
Defined.

(** A repository name of two lines gives eight lines, the sixth of which
    is the end of the name; an integer of 4301 digits gives three lines
    and a [ValueError]; a name that standard output cannot encode gives
    one line and a [UnicodeEncodeError]; and without standard output
    nothing is written. *)
Lemma six_lines_need_plain_texts :
  (let r := @run plain_libs "config_shell.py" ["-r"; "a" +:+ newline +:+ "b"]
              example_world in
   r.1 = 0 ∧ length (lines_of (stdout r.2)) = 8%nat ∧
   nth 4 (lines_of (stdout r.2)) "" = "export RESTIC_REPO_NAME=a" ∧
   nth 5 (lines_of (stdout r.2)) "" = "b") ∧
  (let r := @run plain_libs "config_shell.py" ["-r"; "myrepo"]
              long_integer_world in
   r.1 = 1 ∧ length (lines_of (stdout r.2)) = 3%nat) ∧
  (let r := @run plain_libs "config_shell.py" ["-r"; "myrepo"] cafe_world in
   r.1 = 1 ∧ length (lines_of (stdout r.2)) = 1%nat) ∧
  (let r := @run plain_libs "config_shell.py" ["-r"; "myrepo"]
              (closed_world
                 {[ "config.yml" := Document (YDict example_config) ]}) in
   r.1 = 0 ∧ stdout r.2 = "").
Proof.
  split; [|split; [|split]].
  - repeat split; reflexivity.
  - rewrite run_long_integer. split; reflexivity.
  - rewrite run_cafe. split; reflexivity.
  - rewrite run_closed. split; reflexivity.
Qed.

(** C2, as the code has it: when the five values have a text and standard
    output takes the six lines, the value of the sixth line is the restic
    binary, [ -r rclone:], the connection name, [:], the bucket, [/], the
    client, [/], the server, [/] and the repository name, in this order;
    it stands between double quotes, and the values of lines 1 to 5 stand
    as they are. *)
Theorem restic_cmd_line `{PyLibs} prog arg_strings args entries w
    conn client bucket server bin :
  parse_args arg_strings = Parsed args →
  fs w !! config args = Some (Document (YDict entries)) →
  field_text w (boxed entries) information rclone_connection_name = Ok conn →
  field_text w (boxed entries) information client_name = Ok client →
  field_text w (boxed entries) information bucket_name = Ok bucket →
  field_text w (boxed entries) information server_name = Ok server →
  field_text w (boxed entries) binaries restic = Ok bin →
  stdout_takes w
    [ "export RCLONE_CONNECTION_NAME=" +:+ conn;
      "export CLIENT_NAME=" +:+ client;
      "export BUCKET_NAME=" +:+ bucket;
      "export SERVER_NAME=" +:+ server;
      "export RESTIC_REPO_NAME=" +:+ repo args;
      "export RESTIC_CMD=" +:+ dquote +:+
        (bin +:+ " -r rclone:" +:+ conn +:+ ":" +:+ bucket +:+ "/" +:+
         client +:+ "/" +:+ server +:+ "/" +:+ repo args) +:+ dquote ]
  = true →
  run prog arg_strings w
  = (0, write_stdout
          (unlines
             [ "export RCLONE_CONNECTION_NAME=" +:+ conn;
               "export CLIENT_NAME=" +:+ client;
               "export BUCKET_NAME=" +:+ bucket;
               "export SERVER_NAME=" +:+ server;
               "export RESTIC_REPO_NAME=" +:+ repo args;
               "export RESTIC_CMD=" +:+ dquote +:+
                 (bin +:+ " -r rclone:" +:+ conn +:+ ":" +:+ bucket +:+
                  "/" +:+ client +:+ "/" +:+ server +:+ "/" +:+ repo args)
                 +:+ dquote ])
          w).
Proof.
  intros Hargs Hfile Hconn Hclient Hbucket Hserver Hbin Htakes.
  exact (run_well_formed _ _ _ _ _ _ _ _ _ _ Hargs Hfile
           Hconn Hclient Hbucket Hserver Hbin Htakes).
Qed.

(** The example of the specification: [--repo myrepo]. *)
Lemma restic_cmd_line_example :
  @run plain_libs "config_shell.py" ["--repo"; "myrepo"] example_world
  = (0, write_stdout
          (unlines
             [ "export RCLONE_CONNECTION_NAME=r1";
               "export CLIENT_NAME=c1";
               "export BUCKET_NAME=b1";
               "export SERVER_NAME=s1";
               "export RESTIC_REPO_NAME=myrepo";
               "export RESTIC_CMD=" +:+ dquote +:+
                 "/usr/bin/restic -r rclone:r1:b1/c1/s1/myrepo" +:+ dquote ])
          example_world).
Proof.
  exact (@restic_cmd_line plain_libs "config_shell.py" ["--repo"; "myrepo"]
           {| repo := "myrepo"; config := "config.yml" |}
           example_config example_world
           "r1" "c1" "b1" "s1" "/usr/bin/restic"
           eq_refl eq_refl eq_refl eq_refl eq_refl eq_refl eq_refl eq_refl).
Defined.

(** There is no sixth line when a value has no text (an integer of 4301
    digits) or when standard output has no bytes for it (a name that is
    not in ASCII, on a standard output in ASCII): the run ends with the
    error, after three lines and after one. *)
Lemma restic_cmd_line_needs_texts :
  @run plain_libs "config_shell.py" ["-r"; "myrepo"] long_integer_world
  = (1, write_stderr (Traceback ValueError)
          (write_stdout
             (unlines [ "export RCLONE_CONNECTION_NAME=r1";
                        "export CLIENT_NAME=c1";
                        "export BUCKET_NAME=b1" ])
             long_integer_world)) ∧
  @run plain_libs "config_shell.py" ["-r"; "myrepo"] cafe_world
  = (1, write_stderr (Traceback UnicodeEncodeError)
          (write_stdout (unlines ["export RCLONE_CONNECTION_NAME=r1"])
             cafe_world)).
Proof. split; [apply run_long_integer|apply run_cafe]. Qed.

(** C9, as the code has it: when the four information fields can be read
    and have a text, binaries.restic cannot be read, and standard output
    takes the lines, the script prints the first five export lines and
    then fails with the lookup error: a traceback, exit status 1, and the
    five lines left on standard output. *)
Theorem partial_output_without_restic `{PyLibs} prog arg_strings args entries
    w conn client bucket server (e : error) :
  parse_args arg_strings = Parsed args →
  fs w !! config args = Some (Document (YDict entries)) →
  field_text w (boxed entries) information rclone_connection_name = Ok conn →
  field_text w (boxed entries) information client_name = Ok client →
  field_text w (boxed entries) information bucket_name = Ok bucket →
  field_text w (boxed entries) information server_name = Ok server →
  config_get (boxed entries) binaries restic = Raise e →
  stdout_takes w
    [ "export RCLONE_CONNECTION_NAME=" +:+ conn;
      "export CLIENT_NAME=" +:+ client;
      "export BUCKET_NAME=" +:+ bucket;
      "export SERVER_NAME=" +:+ server;
      "export RESTIC_REPO_NAME=" +:+ repo args ] = true →
  is_lookup_error e = true ∧
  run prog arg_strings w
  = (1, write_stderr (Traceback e)
          (write_stdout
             (unlines
                [ "export RCLONE_CONNECTION_NAME=" +:+ conn;
                  "export CLIENT_NAME=" +:+ client;
                  "export BUCKET_NAME=" +:+ bucket;
                  "export SERVER_NAME=" +:+ server;
                  "export RESTIC_REPO_NAME=" +:+ repo args ])
             w)).
Proof.
  intros Hargs Hfile Hconn Hclient Hbucket Hserver Hbin
    [Htakes Hflush]%andb_true_iff.
  split.
  { by apply config_get_raises in Hbin as (e' & [= ->] & He). }
  apply run_raises; [|done].
  rewrite (main_rendered _ _ _ _ _ Hargs Hfile).
  apply render_exports_stops_5; try done.
  unfold field_text. by rewrite Hbin.
Qed.

Lemma partial_output_example :
  is_lookup_error (BoxKeyError binaries) = true ∧
  @run plain_libs "config_shell.py" ["-r"; "myrepo"] no_binaries_world
  = (1, write_stderr (Traceback (BoxKeyError binaries))
          (write_stdout
             (unlines
                [ "export RCLONE_CONNECTION_NAME=r1";
                  "export CLIENT_NAME=c1";
                  "export BUCKET_NAME=b1";
                  "export SERVER_NAME=s1";
                  "export RESTIC_REPO_NAME=myrepo" ])
             no_binaries_world)).
Proof.
  exact (@partial_output_without_restic plain_libs "config_shell.py"
           ["-r"; "myrepo"] {| repo := "myrepo"; config := "config.yml" |}
           no_binaries_config no_binaries_world
           "r1" "c1" "b1" "s1" (BoxKeyError binaries)
           eq_refl eq_refl eq_refl eq_refl eq_refl eq_refl eq_refl eq_refl).
Defined.

(** The four information fields are there and binaries is not, and the
    run ends after three lines with a [ValueError], which is no lookup
    error: the server name is an integer of 4301 digits. *)
Lemma partial_output_needs_texts :
  (∃ conn client bucket server,
     @config_get plain_libs (boxed long_integer_no_binaries_config)
       information rclone_connection_name = Ok conn ∧
     @config_get plain_libs (boxed long_integer_no_binaries_config)
       information client_name = Ok client ∧
     @config_get plain_libs (boxed long_integer_no_binaries_config)
       information bucket_name = Ok bucket ∧
     @config_get plain_libs (boxed long_integer_no_binaries_config)
       information server_name = Ok server) ∧
  @config_get plain_libs (boxed long_integer_no_binaries_config)
    binaries restic = Raise (BoxKeyError binaries) ∧
  @run plain_libs "config_shell.py" ["-r"; "myrepo"]
    long_integer_no_binaries_world
  = (1, write_stderr (Traceback ValueError)
          (write_stdout
             (unlines [ "export RCLONE_CONNECTION_NAME=r1";
                        "export CLIENT_NAME=c1";
                        "export BUCKET_NAME=b1" ])
             long_integer_no_binaries_world)) ∧
  is_lookup_error ValueError = false.
Proof.
  split; [by eexists _, _, _, _|]. split; [reflexivity|].
  split; [apply run_long_integer_no_binaries|reflexivity].
Qed.

(** C10, as the code has it: the values of the fields and the repository
    name reach the output as they are, when they have a text and standard
    output takes the lines: a string is written character for character,
    whatever it contains, and a value that is not a string is accepted
    and written as its text (the decimal digits of an integer within the
    limit on digits, [True], [False], [None]). *)
Theorem values_verbatim `{PyLibs} prog arg_strings args entries w
    conn client bucket server bin tconn tclient tbucket tserver tbin :
  parse_args arg_strings = Parsed args →
  fs w !! config args = Some (Document (YDict entries)) →
  config_get (boxed entries) information rclone_connection_name = Ok conn →
  config_get (boxed entries) information client_name = Ok client →
  config_get (boxed entries) information bucket_name = Ok bucket →
  config_get (boxed entries) information server_name = Ok server →
  config_get (boxed entries) binaries restic = Ok bin →
  Forall2 (λ v t, text_of (int_max_str_digits w) (hash_seed w) v = Ok t)
    [conn; client; bucket; server; bin]
    [tconn; tclient; tbucket; tserver; tbin] →
  stdout_takes w
    (export_lines tconn tclient tbucket tserver tbin (repo args)) = true →
  run prog arg_strings w
  = (0, write_stdout
          (unlines
             [ "export RCLONE_CONNECTION_NAME=" +:+ tconn;
               "export CLIENT_NAME=" +:+ tclient;
               "export BUCKET_NAME=" +:+ tbucket;
               "export SERVER_NAME=" +:+ tserver;
               "export RESTIC_REPO_NAME=" +:+ repo args;
               "export RESTIC_CMD=" +:+ dquote +:+
                 (tbin +:+ " -r rclone:" +:+ tconn +:+ ":" +:+ tbucket +:+
                  "/" +:+ tclient +:+ "/" +:+ tserver +:+ "/" +:+ repo args)
                 +:+ dquote ])
          w) ∧
  Forall2 (λ v t,
             match v with
             | YStr s => t = s
             | YInt n =>
                 t = pretty n ∧ digits_over (int_max_str_digits w) n = false
             | YBool b => t = if b then "True" else "False"
             | YNone => t = "None"
             | YFloat text => t = text
             | YList _ | YDict _ | YOther _ => True
             end)
          [conn; client; bucket; server; bin]
          [tconn; tclient; tbucket; tserver; tbin].
Proof.
  intros Hargs Hfile Hconn Hclient Hbucket Hserver Hbin Htexts Htakes.
  split.
  - apply Forall2_cons_1 in Htexts as [Htconn Htexts].
    apply Forall2_cons_1 in Htexts as [Htclient Htexts].
    apply Forall2_cons_1 in Htexts as [Htbucket Htexts].
    apply Forall2_cons_1 in Htexts as [Htserver Htexts].
    apply Forall2_cons_1 in Htexts as [Htbin _].
    apply (run_well_formed _ _ args entries); try done;
      unfold field_text;
      by rewrite ?Hconn, ?Hclient, ?Hbucket, ?Hserver, ?Hbin.
  - eapply Forall2_impl; [exact Htexts|]. intros v t. cbn beta.
    destruct v as [|[]|n| | | | |]; cbn; try congruence; try done.
    destruct (digits_over _ n); [done|]. intros [= <-]. by split.
Qed.

Lemma values_verbatim_example :
  @run plain_libs "config_shell.py" ["-r"; "my repo`x`"] awkward_world
  = (0, write_stdout
          (unlines
             [ "export RCLONE_CONNECTION_NAME=r 1";
               "export CLIENT_NAME=c" +:+ dquote +:+ "1";
               "export BUCKET_NAME=$(id)";
               "export SERVER_NAME=42";
               "export RESTIC_REPO_NAME=my repo`x`";
               "export RESTIC_CMD=" +:+ dquote +:+
                 ("restic;ls -r rclone:r 1:$(id)/c" +:+ dquote +:+
                 "1/42/my repo`x`") +:+ dquote ])
          awkward_world) ∧
  Forall2 (λ v t,
             match v with
             | YStr s => t = s
             | YInt n =>
                 t = pretty n ∧
                 digits_over (int_max_str_digits awkward_world) n = false
             | YBool b => t = if b then "True" else "False"
             | YNone => t = "None"
             | YFloat text => t = text
             | YList _ | YDict _ | YOther _ => True
             end)
          [ YStr "r 1"; YStr ("c" +:+ dquote +:+ "1"); YStr "$(id)";
            YInt 42; YStr "restic;ls" ]
          [ "r 1"; "c" +:+ dquote +:+ "1"; "$(id)"; "42"; "restic;ls" ].
Proof.
  apply (@values_verbatim plain_libs "config_shell.py"
           ["-r"; "my repo`x`"]
           {| repo := "my repo`x`"; config := "config.yml" |}
           awkward_config awkward_world
           (YStr "r 1") (YStr ("c" +:+ dquote +:+ "1")) (YStr "$(id)")
           (YInt 42) (YStr "restic;ls")
           "r 1" ("c" +:+ dquote +:+ "1") "$(id)" "42" "restic;ls");
    try reflexivity.
  repeat constructor.
Defined.

(** An integer is not accepted whatever it is: one of 4301 digits has no
    text ([ValueError]), and the run ends after three lines. *)
Lemma long_integer_rejected :
  @config_get plain_libs (boxed long_integer_config) information server_name
  = Ok long_integer ∧
  @text_of plain_libs 4300 0 long_integer = Raise ValueError ∧
  @run plain_libs "config_shell.py" ["-r"; "myrepo"] long_integer_world
  = (1, write_stderr (Traceback ValueError)
          (write_stdout
             (unlines [ "export RCLONE_CONNECTION_NAME=r1";
                        "export CLIENT_NAME=c1";
                        "export BUCKET_NAME=b1" ])
             long_integer_world)).
Proof.
  split; [reflexivity|].
  split; [apply long_integer_has_no_text|apply run_long_integer].
Qed.

(** *** The command line without the repository option *)







(** *** Loading the configuration *)




(** C5, as the code has it: [load_config] checks no field: a document
    that is a mapping loads whatever its keys are, and the state is left
    as it was.  A field that cannot be read makes the script fail where
    it is read: when the fields before it have a text and standard output
    takes the lines before it, the script ends with the traceback of the
    key or attribute lookup error and exit status 1, after these
    lines. *)
Theorem load_without_validation `{PyLibs} entries w prog arg_strings args :
  parse_args arg_strings = Parsed args →
  fs w !! config args = Some (Document (YDict entries)) →
  load_config (config args) w = (Ok (boxed entries), w) ∧
  ∀ e : error,
    let fails_after ls :=
      is_lookup_error e = true ∧
      run prog arg_strings w
      = (1, write_stderr (Traceback e) (write_stdout (unlines ls) w)) in
    let read section name t :=
      field_text w (boxed entries) section name = Ok t in
    let missing section name :=
      config_get (boxed entries) section name = Raise e in
    (missing information rclone_connection_name → fails_after []) ∧
    (∀ conn,
       read information rclone_connection_name conn →
       missing information client_name →
       stdout_takes w ["export RCLONE_CONNECTION_NAME=" +:+ conn] = true →
       fails_after ["export RCLONE_CONNECTION_NAME=" +:+ conn]) ∧
    (∀ conn client,
       read information rclone_connection_name conn →
       read information client_name client →
       missing information bucket_name →
       stdout_takes w [ "export RCLONE_CONNECTION_NAME=" +:+ conn;
                        "export CLIENT_NAME=" +:+ client ] = true →
       fails_after [ "export RCLONE_CONNECTION_NAME=" +:+ conn;
                     "export CLIENT_NAME=" +:+ client ]) ∧
    (∀ conn client bucket,
       read information rclone_connection_name conn →
       read information client_name client →
       read information bucket_name bucket →
       missing information server_name →
       stdout_takes w [ "export RCLONE_CONNECTION_NAME=" +:+ conn;
                        "export CLIENT_NAME=" +:+ client;
                        "export BUCKET_NAME=" +:+ bucket ] = true →
       fails_after [ "export RCLONE_CONNECTION_NAME=" +:+ conn;
                     "export CLIENT_NAME=" +:+ client;
                     "export BUCKET_NAME=" +:+ bucket ]) ∧
    (∀ conn client bucket server,
       read information rclone_connection_name conn →
       read information client_name client →
       read information bucket_name bucket →
       read information server_name server →
       missing binaries restic →
       stdout_takes w [ "export RCLONE_CONNECTION_NAME=" +:+ conn;
                        "export CLIENT_NAME=" +:+ client;
                        "export BUCKET_NAME=" +:+ bucket;
                        "export SERVER_NAME=" +:+ server;
                        "export RESTIC_REPO_NAME=" +:+ repo args ] = true →
       fails_after [ "export RCLONE_CONNECTION_NAME=" +:+ conn;
                     "export CLIENT_NAME=" +:+ client;
                     "export BUCKET_NAME=" +:+ bucket;
                     "export SERVER_NAME=" +:+ server;
                     "export RESTIC_REPO_NAME=" +:+ repo args ]).
Proof.
  intros Hargs Hfile. split; [by apply load_config_mapping|].
  intros e. cbv zeta.
  assert (∀ section name,
            config_get (boxed entries) section name = Raise e →
            is_lookup_error e = true ∧
            field_text w (boxed entries) section name = Raise e)
    as Hmissing.
  { intros section name Hget. split.
    - by apply config_get_raises in Hget as (e' & [= ->] & He).
    - unfold field_text. by rewrite Hget. }
  split; [|split; [|split; [|split]]].
  - intros [He Hfield]%Hmissing. split; [done|].
    change (unlines []) with "". rewrite write_stdout_nil.
    apply run_raises_at_once.
    rewrite (main_rendered _ _ _ _ _ Hargs Hfile).
    by apply render_exports_stops_1.
  - intros conn Hconn [He Hfield]%Hmissing [Htakes Hflush]%andb_true_iff.
    split; [done|]. apply run_raises; [|done].
    rewrite (main_rendered _ _ _ _ _ Hargs Hfile).
    by apply render_exports_stops_2.
  - intros conn client Hconn Hclient [He Hfield]%Hmissing
      [Htakes Hflush]%andb_true_iff.
    split; [done|]. apply run_raises; [|done].
    rewrite (main_rendered _ _ _ _ _ Hargs Hfile).
    by apply render_exports_stops_3.
  - intros conn client bucket Hconn Hclient Hbucket [He Hfield]%Hmissing
      [Htakes Hflush]%andb_true_iff.
    split; [done|]. apply run_raises; [|done].
    rewrite (main_rendered _ _ _ _ _ Hargs Hfile).
    by apply render_exports_stops_4.
  - intros conn client bucket server Hconn Hclient Hbucket Hserver
      [He Hfield]%Hmissing [Htakes Hflush]%andb_true_iff.
    split; [done|]. apply run_raises; [|done].
    rewrite (main_rendered _ _ _ _ _ Hargs Hfile).
    by apply render_exports_stops_5.
Qed.

(** A mapping with none of the sections loads, and the script fails at
    the first field; one without the client name fails after the first
    line. *)
Lemma load_without_validation_example :
  (@load_config plain_libs "config.yml" unrelated_world
   = (Ok (boxed unrelated_config), unrelated_world) ∧
   is_lookup_error (BoxKeyError information) = true ∧
   @run plain_libs "config_shell.py" ["-r"; "myrepo"] unrelated_world
   = (1, write_stderr (Traceback (BoxKeyError information))
           (write_stdout (unlines []) unrelated_world))) ∧
  (is_lookup_error (BoxKeyError client_name) = true ∧
   @run plain_libs "config_shell.py" ["-r"; "myrepo"] no_client_world
   = (1, write_stderr (Traceback (BoxKeyError client_name))
           (write_stdout (unlines ["export RCLONE_CONNECTION_NAME=r1"])
              no_client_world))).
Proof.
  split.
  - destruct (@load_without_validation plain_libs unrelated_config
                unrelated_world "config_shell.py" ["-r"; "myrepo"]
                {| repo := "myrepo"; config := "config.yml" |}
                eq_refl eq_refl) as [Hload Hfields].
    split; [exact Hload|].
    exact (proj1 (Hfields (BoxKeyError information)) eq_refl).
  - destruct (@load_without_validation plain_libs no_client_config
                no_client_world "config_shell.py" ["-r"; "myrepo"]
                {| repo := "myrepo"; config := "config.yml" |}
                eq_refl eq_refl) as [_ Hfields].
    exact (proj1 (proj2 (Hfields (BoxKeyError client_name)))
             "r1" eq_refl eq_refl eq_refl).
Defined.

(** The document [hello] parses, and [load_config] fails on it: [Box]
    refuses a string.  So does the empty document, which is [None]. *)
Lemma load_rejects_scalar_document :
  (fs scalar_world !! "config.yml" = Some (Document (YStr "hello")) ∧
   @load_config plain_libs "config.yml" scalar_world
   = (Raise BoxValueError, scalar_world) ∧
   @run plain_libs "config_shell.py" ["-r"; "myrepo"] scalar_world
   = (1, write_stderr (Traceback BoxValueError) scalar_world)) ∧
  (fs blank_world !! "config.yml" = Some (Document YNone) ∧
   @load_config plain_libs "config.yml" blank_world
   = (Raise BoxValueError, blank_world)).
Proof. repeat split; reflexivity. Qed.

(** *** Effects *)

(** C7: printing the exports changes the state in one place only: it
    appends text to standard output; the files, the environment, the
    processes started, the terminal, the error stream and the settings
    of the process are as they were. *)
Theorem render_exports_frame `{PyLibs} config args w :
  let w' := (render_exports config args w).2 in
  fs w' = fs w ∧ environ w' = environ w ∧ spawned w' = spawned w ∧
  columns w' = columns w ∧ stderr w' = stderr w ∧
  int_max_str_digits w' = int_max_str_digits w ∧
  hash_seed w' = hash_seed w ∧ sys_stdout w' = sys_stdout w ∧
  ∃ out, stdout w' = stdout w +:+ out.
Proof.
  destruct (render_exports_effect config args w) as (r & out & Hr & _).
  cbv zeta. rewrite Hr. cbn. repeat split. by exists out.
Qed.

(** *** Two runs *)



Section Steady_runs.
Context `{PyLibs}.


End Steady_runs.




(** *** The cases of a run *)

Lemma concat_lines (ls : list string) :
  foldr String.app "" (flat_map (λ l, [l; newline]) ls) = unlines ls.
Proof. induction ls as [|l ls IH]; [done|]. cbn. by rewrite IH. Qed.

Lemma takes_lines_snoc (ls : list string) (l : string) (w : world) :
  takes w (flat_map (λ l, [l; newline]) ls) = true →
  takes (write_stdout (unlines ls) w) [l; newline] = true →
  takes w (flat_map (λ l, [l; newline]) (ls ++ [l])) = true.
Proof.
  intros Hls Hl. rewrite flat_map_app, takes_app, concat_lines, Hls.
  cbn [flat_map app]. by rewrite Hl.
Qed.

Lemma bind_print_closed {B : Type} (l : string) (f : unit → M B) w :
  sys_stdout w = None → (print l ≫= f) w = f tt w.
Proof. intros Hnone. unfold mbind, M_bind, print. by rewrite Hnone. Qed.

Lemma bind_print_refused {B : Type} ls (l : string) (f : unit → M B) w st :
  sys_stdout w = Some st →
  takes (write_stdout (unlines ls) w) [l; newline] = false →
  ∃ (e : error) w',
    (print l ≫= f) (write_stdout (unlines ls) w) = (Raise e, w').
Proof.
  intros Hst Htakes.
  destruct (print_cases l (write_stdout (unlines ls) w))
    as [[Hnone _]|[[Htaken _]|(st' & e & _ & _ & [Hprint|Hprint])]].
  - cbn in Hnone. congruence.
  - congruence.
  - exists (error_of e). eexists. unfold mbind, M_bind. by rewrite Hprint.
  - exists (error_of e). eexists. unfold mbind, M_bind. by rewrite Hprint.
Qed.

Section Cases.
Context `{PyLibs}.

Lemma bind_interpolate_at {B : Type} config section name (f : string → M B)
    w :
  (interpolate config section name ≫= f) w
  = match field_text w config section name with
    | Ok t => f t w
    | Raise e => (Raise e, w)
    end.
Proof.
  rewrite <- (write_stdout_nil w) at 1. rewrite bind_interpolate.
  by rewrite write_stdout_nil.
Qed.

(** When [render_exports] returns, the five fields had a text, and the
    six lines were written in full unless there is no standard output. *)
Lemma render_exports_returns config args w w' :
  render_exports config args w = (Ok tt, w') →
  ∃ conn client bucket server bin,
    field_text w config information rclone_connection_name = Ok conn ∧
    field_text w config information client_name = Ok client ∧
    field_text w config information bucket_name = Ok bucket ∧
    field_text w config information server_name = Ok server ∧
    field_text w config binaries restic = Ok bin ∧
    ((sys_stdout w = None ∧ w' = w) ∨
     (takes w (flat_map (λ l, [l; newline])
                 (export_lines conn client bucket server bin (repo args)))
      = true ∧
      w' = write_stdout
             (unlines
                (export_lines conn client bucket server bin (repo args)))
             w)).
Proof.
  destruct (sys_stdout w) as [st|] eqn:Hst.
  - replace (render_exports config args w)
      with (render_exports config args (write_stdout (unlines []) w))
      by (change (unlines []) with ""; by rewrite write_stdout_nil).
    assert (takes w (flat_map (λ l, [l; newline]) []) = true) as Htakes
      by done.
    unfold render_exports.
    rewrite bind_interpolate.
    destruct (field_text w config information rclone_connection_name)
      as [conn|] eqn:Hconn; [|done].
    match goal with
    | |- context [(print ?l ≫= ?f) (write_stdout (unlines ?ls) w)] =>
        destruct (takes (write_stdout (unlines ls) w) [l; newline]) eqn:Ht1;
        [rewrite (bind_print_taken ls l [] f w Ht1)
        |destruct (bind_print_refused ls l f w st Hst Ht1) as (e & w'' & ->);
         done]
    end.
    pose proof (takes_lines_snoc _ _ _ Htakes Ht1) as Htakes1.
    cbn [app] in Htakes1 |- *.
    rewrite bind_interpolate.
    destruct (field_text w config information client_name)
      as [client|] eqn:Hclient; [|done].
    match goal with
    | |- context [(print ?l ≫= ?f) (write_stdout (unlines ?ls) w)] =>
        destruct (takes (write_stdout (unlines ls) w) [l; newline]) eqn:Ht2;
        [rewrite (bind_print_taken ls l [] f w Ht2)
        |destruct (bind_print_refused ls l f w st Hst Ht2) as (e & w'' & ->);
         done]
    end.
    pose proof (takes_lines_snoc _ _ _ Htakes1 Ht2) as Htakes2.
    cbn [app] in Htakes2 |- *.
    rewrite bind_interpolate.
    destruct (field_text w config information bucket_name)
      as [bucket|] eqn:Hbucket; [|done].
    match goal with
    | |- context [(print ?l ≫= ?f) (write_stdout (unlines ?ls) w)] =>
        destruct (takes (write_stdout (unlines ls) w) [l; newline]) eqn:Ht3;
        [rewrite (bind_print_taken ls l [] f w Ht3)
        |destruct (bind_print_refused ls l f w st Hst Ht3) as (e & w'' & ->);
         done]
    end.
    pose proof (takes_lines_snoc _ _ _ Htakes2 Ht3) as Htakes3.
    cbn [app] in Htakes3 |- *.
    rewrite bind_interpolate.
    destruct (field_text w config information server_name)
      as [server|] eqn:Hserver; [|done].
    match goal with
    | |- context [(print ?l ≫= ?f) (write_stdout (unlines ?ls) w)] =>
        destruct (takes (write_stdout (unlines ls) w) [l; newline]) eqn:Ht4;
        [rewrite (bind_print_taken ls l [] f w Ht4)
        |destruct (bind_print_refused ls l f w st Hst Ht4) as (e & w'' & ->);
         done]
    end.
    pose proof (takes_lines_snoc _ _ _ Htakes3 Ht4) as Htakes4.
    cbn [app] in Htakes4 |- *.
    match goal with
    | |- context [(print ?l ≫= ?f) (write_stdout (unlines ?ls) w)] =>
        destruct (takes (write_stdout (unlines ls) w) [l; newline]) eqn:Ht5;
        [rewrite (bind_print_taken ls l [] f w Ht5)
        |destruct (bind_print_refused ls l f w st Hst Ht5) as (e & w'' & ->);
         done]
    end.
    pose proof (takes_lines_snoc _ _ _ Htakes4 Ht5) as Htakes5.
    cbn [app] in Htakes5 |- *.
    rewrite bind_interpolate.
    destruct (field_text w config binaries restic) as [bin|] eqn:Hbin;
      [|done].
    rewrite bind_interpolate, Hconn, bind_interpolate, Hbucket,
      bind_interpolate, Hclient, bind_interpolate, Hserver.
    match goal with
    | |- print ?l (write_stdout (unlines ?ls) w) = _ → _ =>
        destruct (takes (write_stdout (unlines ls) w) [l; newline]) eqn:Ht6
    end.
    + pose proof (takes_lines_snoc _ _ _ Htakes5 Ht6) as Htakes6.
      apply print_taken in Ht6 as [-> _]. rewrite write_line.
      intros [= <-]. exists conn, client, bucket, server, bin.
      repeat split; try done. by right.
    + destruct (bind_print_refused _ _ mret w st Hst Ht6) as (e & w'' & He).
      unfold mbind, M_bind in He.
      destruct (print _ _) as [[[]|e'] w''']; [done|]. done.
  - unfold render_exports.
    rewrite bind_interpolate_at.
    destruct (field_text w config information rclone_connection_name)
      as [conn|] eqn:Hconn; [|done].
    rewrite (bind_print_closed _ _ _ Hst), bind_interpolate_at.
    destruct (field_text w config information client_name)
      as [client|] eqn:Hclient; [|done].
    rewrite (bind_print_closed _ _ _ Hst), bind_interpolate_at.
    destruct (field_text w config information bucket_name)
      as [bucket|] eqn:Hbucket; [|done].
    rewrite (bind_print_closed _ _ _ Hst), bind_interpolate_at.
    destruct (field_text w config information server_name)
      as [server|] eqn:Hserver; [|done].
    rewrite (bind_print_closed _ _ _ Hst), (bind_print_closed _ _ _ Hst),
      bind_interpolate_at.
    destruct (field_text w config binaries restic) as [bin|] eqn:Hbin;
      [|done].
    rewrite bind_interpolate_at, Hconn, bind_interpolate_at, Hbucket,
      bind_interpolate_at, Hclient, bind_interpolate_at, Hserver.
    unfold print. rewrite Hst. intros [= <-].
    exists conn, client, bucket, server, bin. repeat split; try done.
    by left.
Qed.

(** What [main] does for each outcome of the command line. *)
Lemma main_effect prog arg_strings w :
  ∃ r out ds,
    main prog arg_strings w = (r, appended out ds w) ∧
    match parse_args arg_strings with
    | UsageError err =>
        r = Raise (SystemExit 2) ∧ out = "" ∧ ds = [UsageMessage prog err]
    | HelpRequested =>
        let message := format_help prog (columns w) in
        (r = Raise (SystemExit 0) ∧ out = message ∧ ds = [] ∧
         (message = "" ∨ accepts w message = true)) ∨
        (r = Raise (SystemExit 0) ∧ out = "" ∧ ds = [HelpMessage message] ∧
         sys_stdout w = None) ∨
        (∃ e : error,
           (e = UnicodeEncodeError ∨ e = OSError) ∧
           r = Raise e ∧ out = "" ∧ ds = [] ∧
           sys_stdout w ≠ None ∧ accepts w message = false)
    | Parsed args =>
        ds = [] ∧
        ((∃ e : error,
            load_config (config args) w = (Raise e, w) ∧
            r = Raise e ∧ out = "") ∨
         (∃ loaded,
            load_config (config args) w = (Ok loaded, w) ∧
            render_exports loaded args w = (r, write_stdout out w) ∧
            ∀ code, r ≠ Raise (SystemExit code)))
    end.
Proof.
  destruct (parse_args arg_strings) as [args| |err] eqn:Hargs.
  - rewrite (main_parsed _ _ _ _ Hargs). unfold mbind, M_bind.
    pose proof (load_config_reads (config args) w) as Hload.
    pose proof (load_config_no_exit (config args) w) as Hexit.
    revert Hload Hexit.
    destruct (load_config (config args) w).1 as [loaded|[code|e]];
      intros Hload Hexit; rewrite Hload.
    + destruct (render_exports_effect loaded args w) as (r & out & Hr & Hno).
      exists r, out, []. split; [by rewrite Hr, write_stdout_appended|].
      split; [done|]. right. by exists loaded.
    + by destruct (Hexit code).
    + exists (Raise e), "", []. rewrite appended_nil.
      split; [done|]. split; [done|]. left. by exists e.
  - unfold main, argument_parsing. rewrite Hargs.
    unfold mbind, M_bind, print_help, stream_write, accepts. cbv zeta.
    destruct (String.eqb_spec (format_help prog (columns w)) "") as [->|_].
    { exists (Raise (SystemExit 0)), "", []. rewrite appended_nil.
      split; [done|]. left. repeat split. by left. }
    destruct (sys_stdout w) as [st|].
    + destruct (refuses st (stdout w) _) as [e|].
      * exists (Raise (error_of e)), "", []. rewrite appended_nil.
        split; [done|]. right; right. exists (error_of e).
        split; [by destruct e; [left|right]|done].
      * eexists (Raise (SystemExit 0)), _, []. rewrite write_stdout_appended.
        split; [done|]. left. repeat split. by right.
    + eexists (Raise (SystemExit 0)), "", [_]. rewrite write_stderr_only.
      split; [done|]. by right; left.
  - unfold main, argument_parsing. rewrite Hargs.
    unfold mbind, M_bind. cbn beta iota.
    eexists (Raise (SystemExit 2)), "", [_]. by rewrite write_stderr_only.
Qed.

End Cases.

Section Exit.
Context `{PyLibs}.


End Exit.

(** *** More of the runs *)



(** X3: the exit status 0 is not given to an output that stops halfway.
    Either the command line asked for help, and the help was written in
    full, or went to the error stream because the process has no
    standard output.  Or the five fields had a text, and the six lines
    were written in full, or the process has no standard output and
    nothing was written. *)
Theorem exit_zero_complete `{PyLibs} prog arg_strings w :
  (run prog arg_strings w).1 = 0 →
  (parse_args arg_strings = HelpRequested ∧
   (run prog arg_strings w
    = (0, write_stdout (format_help prog (columns w)) w) ∨
    sys_stdout w = None ∧
    run prog arg_strings w
    = (0, write_stderr (HelpMessage (format_help prog (columns w))) w))) ∨
  ∃ args loaded conn client bucket server bin,
    parse_args arg_strings = Parsed args ∧
    load_config (config args) w = (Ok loaded, w) ∧
    field_text w loaded information rclone_connection_name = Ok conn ∧
    field_text w loaded information client_name = Ok client ∧
    field_text w loaded information bucket_name = Ok bucket ∧
    field_text w loaded information server_name = Ok server ∧
    field_text w loaded binaries restic = Ok bin ∧
    (run prog arg_strings w
     = (0, write_stdout
             (unlines (export_lines conn client bucket server bin (repo args)))
             w) ∨
     sys_stdout w = None ∧ run prog arg_strings w = (0, w)).
Proof.
  unfold run.
  destruct (main_effect prog arg_strings w) as (r & out & ds & Hmain & Hcase).
  rewrite Hmain.
  destruct (parse_args arg_strings) as [args| |err] eqn:Hargs.
  - destruct Hcase as [-> [(e & _ & -> & ->)|(loaded & Hload & Hr & Hexit)]].
    { cbn [exit_status]. rewrite write_stderr_appended.
      rewrite finalize_untouched; [done|]. cbn. by rewrite app_nil_r_s. }
    destruct r as [[]|[code|e]]; [|by destruct (Hexit code)|].
    2:{ cbn [exit_status]. rewrite write_stderr_appended. cbn [app].
        by destruct (finalize_cases w 1 (appended out [Traceback e] w))
          as [->|[-> _]]. }
    cbn [exit_status]. intros Hstatus. right.
    destruct (finalize_cases w 0 (appended out [] w))
      as [Hfin|[Hfin _]]; rewrite Hfin in Hstatus |- *; [|done].
    destruct (render_exports_returns _ _ _ _ Hr)
      as (conn & client & bucket & server & bin & Hconn & Hclient & Hbucket
          & Hserver & Hbin & Hout).
    exists args, loaded, conn, client, bucket, server, bin.
    repeat split; try done. rewrite <- write_stdout_appended.
    destruct Hout as [[Hnone ->]|[_ ->]]; [by right|by left].
  - cbv zeta in Hcase. intros Hstatus. left. split; [done|].
    destruct Hcase as [(-> & -> & -> & _)|[(-> & -> & -> & Hnone)|
                       (e & _ & -> & -> & -> & _)]];
      cbn [exit_status] in *.
    + destruct (finalize_cases w 0
                  (appended (format_help prog (columns w)) [] w))
        as [Hfin|[Hfin _]]; rewrite Hfin in Hstatus |- *; [|done].
      left. by rewrite write_stdout_appended.
    + right. split; [done|].
      rewrite finalize_untouched; [|cbn; by rewrite app_nil_r_s].
      by rewrite write_stderr_only.
    + rewrite write_stderr_appended in Hstatus.
      rewrite finalize_untouched in Hstatus; [done|].
      cbn. by rewrite app_nil_r_s.
  - destruct Hcase as (-> & -> & ->). cbn [exit_status].
    rewrite finalize_untouched; [done|]. cbn. by rewrite app_nil_r_s.
Qed.

Lemma exit_zero_complete_example :
  (parse_args ["-r"; "myrepo"] = HelpRequested ∧
   (@run plain_libs "config_shell.py" ["-r"; "myrepo"] example_world
    = (0, write_stdout
            (@format_help plain_libs "config_shell.py" (columns example_world))
            example_world) ∨
    sys_stdout example_world = None ∧
    @run plain_libs "config_shell.py" ["-r"; "myrepo"] example_world
    = (0, write_stderr
            (HelpMessage
               (@format_help plain_libs "config_shell.py"
                  (columns example_world)))
            example_world))) ∨
  ∃ args loaded conn client bucket server bin,
    parse_args ["-r"; "myrepo"] = Parsed args ∧
    @load_config plain_libs (config args) example_world
    = (Ok loaded, example_world) ∧
    @field_text plain_libs example_world loaded
      information rclone_connection_name = Ok conn ∧
    @field_text plain_libs example_world loaded information client_name
    = Ok client ∧
    @field_text plain_libs example_world loaded information bucket_name
    = Ok bucket ∧
    @field_text plain_libs example_world loaded information server_name
    = Ok server ∧
    @field_text plain_libs example_world loaded binaries restic = Ok bin ∧
    (@run plain_libs "config_shell.py" ["-r"; "myrepo"] example_world
     = (0, write_stdout
             (unlines (export_lines conn client bucket server bin (repo args)))
             example_world) ∨
     sys_stdout example_world = None ∧
     @run plain_libs "config_shell.py" ["-r"; "myrepo"] example_world
     = (0, example_world)).
Proof.
  apply (@exit_zero_complete plain_libs "config_shell.py" ["-r"; "myrepo"]
           example_world).
  reflexivity.
Defined.

(** Without standard output the script exits with status 0 and nothing
    is written. *)
Example run_without_stdout :
  @run plain_libs "config_shell.py" ["-r"; "myrepo"]
    (closed_world {[ "config.yml" := Document (YDict example_config) ]})
  = (0, closed_world {[ "config.yml" := Document (YDict example_config) ]}).
Proof. apply run_closed. Qed.

(** X6: a configuration file whose document is a scalar (a string, a
    number, a boolean, or nothing at all as in an empty file) is refused
    when it is loaded: the script ends with status 1 and the traceback of
    [BoxValueError], and prints no export line. *)
Theorem scalar_document_rejected `{PyLibs} prog arg_strings args doc w :
  parse_args arg_strings = Parsed args →
  fs w !! config args = Some (Document doc) →
  is_scalar doc = true →
  load_config (config args) w = (Raise BoxValueError, w) ∧
  run prog arg_strings w = (1, write_stderr (Traceback BoxValueError) w).
Proof.
  intros Hargs Hfile Hdoc.
  assert (load_config (config args) w = (Raise BoxValueError, w)) as Hload.
  { rewrite load_config_spec, Hfile. by destruct doc. }
  split; [done|].
  apply run_raises_at_once. rewrite (main_parsed _ _ _ _ Hargs).
  unfold mbind, M_bind. by rewrite Hload.
Qed.

Lemma scalar_document_rejected_example :
  @load_config plain_libs "config.yml" blank_world
  = (Raise BoxValueError, blank_world) ∧
  @run plain_libs "config_shell.py" ["-r"; "myrepo"] blank_world
  = (1, write_stderr (Traceback BoxValueError) blank_world).
Proof.
  apply (@scalar_document_rejected plain_libs "config_shell.py"
           ["-r"; "myrepo"]
           {| repo := "myrepo"; config := "config.yml" |} YNone blank_world);
    reflexivity.
Defined.

(** X7: when the mapping has no [information] key (and [Box] finds no
    other key for the name), the script stops at the first lookup: it
    prints nothing and ends with status 1 and the traceback of the
    [BoxKeyError] for [information], whatever else the mapping holds. *)
Theorem missing_section_error `{PyLibs} prog arg_strings args entries w :
  parse_args arg_strings = Parsed args →
  fs w !! config args = Some (Document (YDict entries)) →
  dict_get "information" entries = None →
  conversion_box (boxed entries) "information" = None →
  run prog arg_strings w
  = (1, write_stderr (Traceback (BoxKeyError information)) w).
Proof.
  intros Hargs Hfile Hkey Hconversion.
  apply run_raises_at_once.
  rewrite (main_rendered _ _ _ _ _ Hargs Hfile).
  apply render_exports_stops_1.
  unfold field_text, config_get, getattr, mbind, result_bind.
  cbn [attr_name]. by rewrite dict_get_boxed, Hkey, Hconversion.
Qed.

Lemma missing_section_error_example :
  @run plain_libs "config_shell.py" ["-r"; "myrepo"] only_binaries_world
  = (1, write_stderr (Traceback (BoxKeyError information))
          only_binaries_world).
Proof.
  apply (@missing_section_error plain_libs "config_shell.py" ["-r"; "myrepo"]
           {| repo := "myrepo"; config := "config.yml" |}
           only_binaries_config only_binaries_world);
    reflexivity.
Defined.

(** X8: when the value of [information] is not a mapping (a string, a
    number, a list, nothing), the script stops at the first field: it
    prints nothing and ends with status 1 and the traceback of the
    [AttributeError] for [rclone_connection_name]. *)
Theorem section_not_mapping_error `{PyLibs} prog arg_strings args entries v w :
  parse_args arg_strings = Parsed args →
  fs w !! config args = Some (Document (YDict entries)) →
  dict_get "information" entries = Some v →
  is_mapping v = false →
  run prog arg_strings w
  = (1, write_stderr (Traceback (AttributeError rclone_connection_name)) w).
Proof.
  intros Hargs Hfile Hkey Hv.
  apply run_raises_at_once.
  rewrite (main_rendered _ _ _ _ _ Hargs Hfile).
  apply render_exports_stops_1.
  assert (getattr (YDict (boxed entries)) information = Ok v) as Hsection.
  { unfold getattr. cbn [attr_name]. by rewrite dict_get_boxed, Hkey. }
  unfold field_text, config_get, mbind, result_bind. rewrite Hsection.
  by destruct v.
Qed.

Lemma section_not_mapping_error_example :
  @run plain_libs "config_shell.py" ["-r"; "myrepo"] flat_world
  = (1, write_stderr (Traceback (AttributeError rclone_connection_name))
          flat_world).
Proof.
  apply (@section_not_mapping_error plain_libs "config_shell.py"
           ["-r"; "myrepo"]
           {| repo := "myrepo"; config := "config.yml" |}
           flat_config (YStr "r1") flat_world);
    reflexivity.
Defined.

(** X9: for a well-formed configuration whose values have a text, on a
    standard output that takes the lines, cutting what the script wrote
    at the newlines gives back the six export lines, one assignment
    each, exactly when neither the repository name nor any of the five
    texts holds a newline. *)
Theorem output_read_back `{PyLibs} prog arg_strings args entries w
    conn client bucket server bin :
  parse_args arg_strings = Parsed args →
  fs w !! config args = Some (Document (YDict entries)) →
  field_text w (boxed entries) information rclone_connection_name = Ok conn →
  field_text w (boxed entries) information client_name = Ok client →
  field_text w (boxed entries) information bucket_name = Ok bucket →
  field_text w (boxed entries) information server_name = Ok server →
  field_text w (boxed entries) binaries restic = Ok bin →
  stdout_takes w (export_lines conn client bucket server bin (repo args))
  = true →
  ∃ out,
    run prog arg_strings w = (0, write_stdout out w) ∧
    (lines_of out = export_lines conn client bucket server bin (repo args) ↔
     forallb no_newline [conn; client; bucket; server; bin; repo args]
     = true).
Proof.
  intros Hargs Hfile Hconn Hclient Hbucket Hserver Hbin Htakes.
  eexists. split.
  - by apply (run_well_formed _ _ args entries).
  - rewrite <- export_lines_no_newline. split.
    + intros <-. apply lines_of_no_newline.
    + apply lines_of_unlines.
Qed.

Lemma output_read_back_example :
  ∃ out,
    @run plain_libs "config_shell.py" ["-r"; "myrepo"] example_world
    = (0, write_stdout out example_world) ∧
    (lines_of out
     = export_lines "r1" "c1" "b1" "s1" "/usr/bin/restic" "myrepo" ↔
     forallb no_newline ["r1"; "c1"; "b1"; "s1"; "/usr/bin/restic"; "myrepo"]
     = true).
Proof.
  apply (@output_read_back plain_libs "config_shell.py" ["-r"; "myrepo"]
           {| repo := "myrepo"; config := "config.yml" |}
           example_config example_world
           "r1" "c1" "b1" "s1" "/usr/bin/restic");
    reflexivity.
Defined.



(** Without standard output the help goes to the error stream. *)
Example help_without_stdout :
  @run plain_libs "config_shell.py" ["-h"] (closed_world ∅)
  = (0, write_stderr (HelpMessage (help_wide "config_shell.py"))
          (closed_world ∅)).
Proof. reflexivity. Qed.

